(** * p4-fusion: the resilient command-execution engine of [P4API]

    A shallow embedding of [P4API::RunEx] and [P4API::Run]
    (src/p4-fusion/p4_api.h, lines 91-180) and of the receiver base class
    [Result] (src/p4-fusion/commands/result.h), together with the
    client-view membership predicate declared at p4_api.h:64.

    The engine is effectful: it talks to the Helix protocol client, sleeps,
    logs and may end the process.  It is embedded in a small monad that
    threads the [P4API] object, records every effect in a trace and
    distinguishes a normal return from [std::exit], from undefined
    behaviour (signed overflow of an [int]) and from an exhausted
    iteration allowance of the model. *)

From Stdlib Require Import ZArith List String Bool Lia.
Import ListNotations.
Local Open Scope string_scope.
Local Open Scope list_scope.
Local Open Scope Z_scope.

(** ** The C++ [int] *)

(** [int] is the 32-bit signed integer; [x--] and [x++] have no defined
    result when they leave its range, which [None] stands for. *)
Definition INT_MIN : Z := - 2 ^ 31.
Definition INT_MAX : Z := 2 ^ 31 - 1.

Definition int_pred (x : Z) : option Z :=
  if INT_MIN <? x then Some (x - 1) else None.

Definition int_succ (x : Z) : option Z :=
  if x <? INT_MAX then Some (x + 1) else None.

(** ** Errors and receivers *)

(** Modelled from the spec: the class [Error] belongs to the protocol-client
    library reached through common.h and is not among the sources.  The spec
    (sections 3 and 6) gives it a three-level severity, none / recoverable /
    fatal, queried through [IsError()] and [IsFatal()]. *)
Inductive Error : Type :=
| NoError
| RecoverableError
| FatalError.

Definition IsError (e : Error) : bool :=
  match e with NoError => false | _ => true end.

Definition IsFatal (e : Error) : bool :=
  match e with FatalError => true | _ => false end.

(** The template parameter [T] of [RunEx]: a class derived from [Result]
    (result.h), default-constructible ([new T()]) and exposing the error it
    received through [GetError()]. *)
Class Result (T : Type) : Type := {
  new_T : T;
  GetError : T -> Error
}.

(** ** The client view *)

(** Modelled from the spec: [FileMap] (commands/file_map.h) is not among the
    sources.  Section 3 describes a view rule as a depot path pattern, a
    client path pattern and an inclusion flag, kept in an ordered list. *)
Record ViewRule : Type := mkViewRule {
  depot_pattern : string;
  client_pattern : string;
  is_include : bool
}.

Definition FileMap : Type := list ViewRule.

(** ** The protocol client and the session object *)

(** The interface of the Helix [ClientApi] object as [P4API] uses it.  The
    connection handle is an abstract state; [Run] drives the receiver it is
    handed and gives it back filled in. *)
Record ClientApiOps (ClientApi T : Type) : Type := {
  SetArgv : list string -> ClientApi -> ClientApi;
  Run : string -> T -> ClientApi -> ClientApi * T;
  Dropped : ClientApi -> bool;
  Init : ClientApi -> bool * ClientApi;
  Final : ClientApi -> bool * ClientApi
}.

Arguments SetArgv {ClientApi T} _ _ _.
Arguments Run {ClientApi T} _ _ _ _.
Arguments Dropped {ClientApi T} _ _.
Arguments Init {ClientApi T} _ _.
Arguments Final {ClientApi T} _ _.

(** The data members of [class P4API] (p4_api.h:31-33). *)
Record P4API (ClientApi : Type) : Type := mkP4API {
  m_ClientAPI : ClientApi;
  m_ClientMapping : FileMap;
  m_Usage : Z
}.

Arguments mkP4API {ClientApi} _ _ _.
Arguments m_ClientAPI {ClientApi} _.
Arguments m_ClientMapping {ClientApi} _.
Arguments m_Usage {ClientApi} _.

(** The two static members of [P4API] that [RunEx] reads (p4_api.h:50-51). *)
Record Statics : Type := mkStatics {
  CommandRetries : Z;
  CommandRefreshThreshold : Z
}.

(** ** Effects *)

Inductive LogLevel : Type := LogERR | LogWARN | LogSUCCESS.

(** A log message is the sequence of values streamed into it with [<<]. *)
Inductive frag : Type :=
| FStr (s : string)
| FInt (z : Z).

Inductive event : Type :=
| ELog (level : LogLevel) (msg : list frag)
| ESleep (seconds : Z)
| ESetArgv (argv : list string)
| ERun (command : string)
| EReinitialize
| EDeinitialize
| EExit (status : Z).

Definition is_log (e : event) : bool :=
  match e with ELog _ _ => true | _ => false end.

(** The trace without its log lines. *)
Definition actions (t : list event) : list event :=
  filter (fun e => negb (is_log e)) t.

Definition is_reinitialize (e : event) : bool :=
  match e with EReinitialize => true | _ => false end.

Definition is_deinitialize (e : event) : bool :=
  match e with EDeinitialize => true | _ => false end.

Definition count_reinitialize (t : list event) : nat :=
  List.length (filter is_reinitialize t).

Definition count_deinitialize (t : list event) : nat :=
  List.length (filter is_deinitialize t).

(** How a computation ends. *)
Inductive outcome (S A : Type) : Type :=
| Normal (a : A) (s : S)
| Exited (status : Z) (s : S)
| Undefined
| OutOfFuel.

Arguments Normal {S A} _ _.
Arguments Exited {S A} _ _.
Arguments Undefined {S A}.
Arguments OutOfFuel {S A}.

Definition M (S A : Type) : Type := S -> list event * outcome S A.

Definition ret {S A} (a : A) : M S A := fun s => ([], Normal a s).

Definition bind {S A B} (m : M S A) (f : A -> M S B) : M S B :=
  fun s =>
    match m s with
    | (t, Normal a s') => let (t', o) := f a s' in (t ++ t', o)
    | (t, Exited c s') => (t, Exited c s')
    | (t, Undefined) => (t, Undefined)
    | (t, OutOfFuel) => (t, OutOfFuel)
    end.

Declare Scope p4_scope.
Delimit Scope p4_scope with p4.
Notation "x <- c1 ;; c2" := (bind c1 (fun x => c2))
  (at level 61, c1 at next level, right associativity) : p4_scope.
Notation "c1 ;; c2" := (bind c1 (fun _ => c2))
  (at level 61, right associativity) : p4_scope.
Local Open Scope p4_scope.

Definition emit {S} (e : event) : M S unit := fun s => ([e], Normal tt s).
Definition gets {S A} (f : S -> A) : M S A := fun s => ([], Normal (f s) s).
Definition modify {S} (f : S -> S) : M S unit := fun s => ([], Normal tt (f s)).
Definition undefined {S A} : M S A := fun _ => ([], Undefined).
Definition out_of_fuel {S A} : M S A := fun _ => ([], OutOfFuel).

(** [std::exit(status)]: the caller never regains control. *)
Definition std_exit {S A} (status : Z) : M S A :=
  fun s => ([EExit status], Exited status s).

(** The value of an [int] expression, or undefined behaviour. *)
Definition int_value {S} (o : option Z) : M S Z :=
  match o with Some z => ret z | None => undefined end.

Definition ERR {S} (msg : list frag) : M S unit := emit (ELog LogERR msg).
Definition WARN {S} (msg : list frag) : M S unit := emit (ELog LogWARN msg).
Definition SUCCESS {S} (msg : list frag) : M S unit := emit (ELog LogSUCCESS msg).

(** [std::this_thread::sleep_for(std::chrono::seconds(n))]. *)
Definition sleep_for {S} (seconds : Z) : M S unit := emit (ESleep seconds).

(** Put a trace in front of a result. *)
Definition prepend {S A} (t : list event) (r : list event * outcome S A)
  : list event * outcome S A :=
  (t ++ fst r, snd r).

Section Engine.

Context {ClientApi T : Type}.
Context (api : ClientApiOps ClientApi T).
Context {R : Result T}.

Local Abbreviation Session := (P4API ClientApi).

Definition set_ClientAPI (s : Session) (c : ClientApi) : Session :=
  mkP4API c (m_ClientMapping s) (m_Usage s).

Definition set_Usage (s : Session) (u : Z) : Session :=
  mkP4API (m_ClientAPI s) (m_ClientMapping s) u.

(** *** Session lifecycle *)

(** Modelled from the spec: the body of [P4API::Initialize] is in
    p4_api.cc, which is not among the sources.  Section 4.1: it opens a
    connection using the static configuration and returns failure, not a
    fatal fault, when that does not work.  Section 3: the usage counter
    is mutated only by the command executor. *)
Definition Initialize_body (s : Session) : bool * Session :=
  let (ok, c) := Init api (m_ClientAPI s) in (ok, set_ClientAPI s c).

(** Modelled from the spec: the body of [P4API::Deinitialize] is in
    p4_api.cc, which is not among the sources.  Section 4.1: it closes
    the connection. *)
Definition Deinitialize_body (s : Session) : bool * Session :=
  let (ok, c) := Final api (m_ClientAPI s) in (ok, set_ClientAPI s c).

(** Modelled from the spec: the body of [P4API::Reinitialize] is in
    p4_api.cc, which is not among the sources.  Section 4.1: it is
    [Deinitialize] followed by [Initialize] and returns success or
    failure. *)
Definition Reinitialize_body (s : Session) : bool * Session :=
  let (ok1, s1) := Deinitialize_body s in
  let (ok2, s2) := Initialize_body s1 in
  (ok1 && ok2, s2).

(** A call of [Reinitialize()] made by [RunEx]. *)
Definition Reinitialize : M Session bool :=
  fun s => let (ok, s') := Reinitialize_body s in ([EReinitialize], Normal ok s').

(** A call of [Deinitialize()] made by [RunEx]. *)
Definition Deinitialize : M Session bool :=
  fun s => let (ok, s') := Deinitialize_body s in ([EDeinitialize], Normal ok s').

(** *** Calls on [m_ClientAPI] *)

Definition ClientAPI_SetArgv (argv : list string) : M Session unit :=
  fun s => ([ESetArgv argv],
            Normal tt (set_ClientAPI s (SetArgv api argv (m_ClientAPI s)))).

Definition ClientAPI_Run (command : string) (ui : T) : M Session T :=
  fun s => let (c, ui') := Run api command ui (m_ClientAPI s) in
           ([ERun command], Normal ui' (set_ClientAPI s c)).

Definition ClientAPI_Dropped : M Session bool :=
  gets (fun s => Dropped api (m_ClientAPI s)).

(** *** [RunEx] *)

(** p4_api.h:94-98. *)
Definition argsString_of (stringArguments : list string) : string :=
  fold_left (fun argsString stringArg => (argsString ++ " " ++ stringArg)%string)
            stringArguments "".

(** p4_api.h:106-109 and 133-136: a receiver is constructed with
    [new T()], the arguments are set and the command is run on it. *)
Definition dispatch (command : string) (stringArguments : list string)
  : M Session T :=
  let clientUser := new_T in
  ClientAPI_SetArgv stringArguments ;;
  ClientAPI_Run command clientUser.

(** The condition of the [while] at p4_api.h:112. *)
Definition dropped_or_error (clientUser : T) : M Session bool :=
  dropped <- ClientAPI_Dropped ;;
  ret (dropped || IsError (GetError clientUser)).

(** p4_api.h:112-139.  [fuel] bounds the number of iterations the model
    follows; the loop variables are [retries] and [clientUser]. *)
Fixpoint retry_loop (fuel : nat) (command : string)
         (stringArguments : list string) (retries : Z) (clientUser : T)
  : M Session T :=
  again <- dropped_or_error clientUser ;;
  if again then
    if retries =? 0 then ret clientUser
    else
      match fuel with
      | O => out_of_fuel
      | S fuel' =>
          ERR [FStr "Connection dropped or command errored, retrying in 5 seconds."] ;;
          sleep_for 5 ;;
          ok <- Reinitialize ;;
          (if ok then SUCCESS [FStr "Reinitialized P4API"]
           else ERR [FStr "Could not reinitialize P4API"]) ;;
          WARN [FStr "Retrying: p4 "; FStr command;
                FStr (argsString_of stringArguments)] ;;
          clientUser' <- dispatch command stringArguments ;;
          retries' <- int_value (int_pred retries) ;;
          retry_loop fuel' command stringArguments retries' clientUser'
      end
  else ret clientUser.

(** Iterations after which the loop at p4_api.h:112 has ended in every
    case: a non-negative budget is used up, a negative one reaches
    [INT_MIN], where [retries--] is undefined. *)
Definition retry_fuel (commandRetries : Z) : nat :=
  S (Z.to_nat (if 0 <=? commandRetries then commandRetries
               else commandRetries - INT_MIN)).

(** p4_api.h:106-139: the first dispatch and the retry loop. *)
Definition retry_phase (command : string) (stringArguments : list string)
           (commandRetries : Z) : M Session T :=
  clientUser <- dispatch command stringArguments ;;
  let retries := commandRetries in
  retry_loop (retry_fuel commandRetries) command stringArguments
             retries clientUser.

(** p4_api.h:141-146. *)
Definition fatal_check (g : Statics) (clientUser : T) : M Session unit :=
  dropped <- ClientAPI_Dropped ;;
  if dropped || IsFatal (GetError clientUser) then
    ERR [FStr "Exiting due to receiving errors even after retrying ";
         FInt (CommandRetries g); FStr " times"] ;;
    Deinitialize ;;
    std_exit 1
  else ret tt.

(** p4_api.h:152-164; the result is the value of [refreshRetries] when
    the loop is left. *)
Fixpoint refresh_loop (fuel : nat) (g : Statics) (refreshRetries : Z)
  : M Session Z :=
  if refreshRetries >? 0 then
    match fuel with
    | O => out_of_fuel
    | S fuel' =>
        usage <- gets m_Usage ;;
        WARN [FStr "Trying to refresh the connection due to age (";
              FInt usage; FStr " > "; FInt (CommandRefreshThreshold g);
              FStr ")."] ;;
        ok <- Reinitialize ;;
        if ok then
          SUCCESS [FStr "Connection was refreshed"] ;;
          ret refreshRetries
        else
          ERR [FStr "Could not refresh connection due to old age. Retrying in 5 seconds"] ;;
          sleep_for 5 ;;
          refreshRetries' <- int_value (int_pred refreshRetries) ;;
          refresh_loop fuel' g refreshRetries'
    end
  else ret refreshRetries.

(** p4_api.h:148-171. *)
Definition usage_refresh (g : Statics) : M Session unit :=
  usage <- gets m_Usage ;;
  usage' <- int_value (int_succ usage) ;;
  modify (fun s => set_Usage s usage') ;;
  if usage' >? CommandRefreshThreshold g then
    let refreshRetries := CommandRetries g in
    refreshRetries <- refresh_loop (Z.to_nat refreshRetries) g refreshRetries ;;
    if refreshRetries =? 0 then
      ERR [FStr "Could not refresh the connection after ";
           FInt (CommandRetries g); FStr " retries. Exiting."] ;;
      std_exit 1
    else ret tt
  else ret tt.

(** p4_api.h:91-174. *)
Definition RunEx (g : Statics) (command : string)
           (stringArguments : list string) (commandRetries : Z)
  : M Session T :=
  clientUser <- retry_phase command stringArguments commandRetries ;;
  fatal_check g clientUser ;;
  usage_refresh g ;;
  ret clientUser.

(** p4_api.h:176-180; the public name [Run] of the source. *)
Definition P4API_Run (g : Statics) (command : string)
           (stringArguments : list string) : M Session T :=
  RunEx g command stringArguments (CommandRetries g).


(** *** Vocabulary for the statements *)

(** The session and the receiver that one [dispatch] leaves behind. *)
Definition dispatch_session (command : string) (stringArguments : list string)
           (s : Session) : Session :=
  set_ClientAPI s
    (fst (Run api command new_T (SetArgv api stringArguments (m_ClientAPI s)))).

Definition dispatch_receiver (command : string)
           (stringArguments : list string) (s : Session) : T :=
  snd (Run api command new_T (SetArgv api stringArguments (m_ClientAPI s))).

(** The two signals of p4_api.h:112 and of p4_api.h:141, read off a session
    and a receiver. *)
Definition signal_set (s : Session) (clientUser : T) : bool :=
  Dropped api (m_ClientAPI s) || IsError (GetError clientUser).

Definition unrecoverable (s : Session) (clientUser : T) : bool :=
  Dropped api (m_ClientAPI s) || IsFatal (GetError clientUser).

(** Every dispatch, on whatever connection state, leaves the transport
    dropped. *)
Definition always_dropped : Prop :=
  forall command ui c, Dropped api (fst (Run api command ui c)) = true.

(** Every dispatch leaves the transport dropped or the receiver in error. *)
Definition always_failing : Prop :=
  forall command ui c,
    Dropped api (fst (Run api command ui c))
    || IsError (GetError (snd (Run api command ui c))) = true.

(** The trace of one iteration of the retry loop, p4_api.h:119-136; [ok] is
    what [Reinitialize()] returned. *)
Definition retry_iteration_trace (ok : bool) (command : string)
           (stringArguments : list string) : list event :=
  [ ELog LogERR [FStr "Connection dropped or command errored, retrying in 5 seconds."];
    ESleep 5;
    EReinitialize;
    (if ok then ELog LogSUCCESS [FStr "Reinitialized P4API"]
     else ELog LogERR [FStr "Could not reinitialize P4API"]);
    ELog LogWARN [FStr "Retrying: p4 "; FStr command;
                  FStr (argsString_of stringArguments)];
    ESetArgv stringArguments;
    ERun command ].

(** The session after [n] consecutive calls of [Reinitialize()]. *)
Fixpoint reinitialized (n : nat) (s : Session) : Session :=
  match n with
  | O => s
  | S n' => reinitialized n' (snd (Reinitialize_body s))
  end.

(** The next [n] calls of [Reinitialize()] all report failure. *)
Fixpoint reinitialize_fails (n : nat) (s : Session) : bool :=
  match n with
  | O => true
  | S n' => negb (fst (Reinitialize_body s))
            && reinitialize_fails n' (snd (Reinitialize_body s))
  end.

(** The five ways one pass through the head of the loop can go. *)
Inductive retry_head (fuel : nat) (command : string) (args : list string)
          (retries : Z) (u : T) (s : Session) : Prop :=
| head_clear :
    signal_set s u = false ->
    retry_loop fuel command args retries u s = ([], Normal u s) ->
    retry_head fuel command args retries u s
| head_spent :
    signal_set s u = true -> retries = 0 ->
    retry_loop fuel command args retries u s = ([], Normal u s) ->
    retry_head fuel command args retries u s
| head_no_fuel :
    signal_set s u = true -> retries <> 0 -> fuel = O ->
    retry_loop fuel command args retries u s = ([], OutOfFuel) ->
    retry_head fuel command args retries u s
| head_underflow fuel' :
    signal_set s u = true -> retries <> 0 -> retries <= INT_MIN ->
    fuel = S fuel' ->
    retry_loop fuel command args retries u s
    = (retry_iteration_trace (fst (Reinitialize_body s)) command args,
       Undefined) ->
    retry_head fuel command args retries u s
| head_iterate fuel' :
    signal_set s u = true -> retries <> 0 -> INT_MIN < retries ->
    fuel = S fuel' ->
    retry_loop fuel command args retries u s
    = prepend (retry_iteration_trace (fst (Reinitialize_body s)) command args)
        (retry_loop fuel' command args (retries - 1)
           (dispatch_receiver command args (snd (Reinitialize_body s)))
           (dispatch_session command args (snd (Reinitialize_body s)))) ->
    retry_head fuel command args retries u s.

(** [RunEx] with the model's iteration allowance for the retry loop made
    explicit. *)
Definition retry_phase_within (fuel : nat) (command : string)
           (stringArguments : list string) (commandRetries : Z)
  : M Session T :=
  clientUser <- dispatch command stringArguments ;;
  retry_loop fuel command stringArguments commandRetries clientUser.

(** *** Readings of the spec that the code does not bear out

    Each is a property of one call, stated as the spec words it; the facts
    below show an input at which it fails and prove what holds instead. *)

(** "After the loop the engine deinitializes and terminates if the transport
    is dropped or the error is fatal; otherwise it returns the receiver." *)
Definition returns_unless_unrecoverable (g : Statics) (command : string)
           (stringArguments : list string) (commandRetries : Z)
           (s : Session) : Prop :=
  forall t u s1,
    retry_phase command stringArguments commandRetries s = (t, Normal u s1) ->
    (unrecoverable s1 u = true ->
     exists t' s',
       RunEx g command stringArguments commandRetries s = (t', Exited 1 s')
       /\ In EDeinitialize t')
    /\ (unrecoverable s1 u = false ->
        exists t' s',
          RunEx g command stringArguments commandRetries s = (t', Normal u s')).

(** "If the signal clears on the first retry, the engine returns a
    successful result after exactly one reinitialize call, whatever the
    budget, provided it permits a retry." *)
Definition single_reinitialize_when_first_retry_clears
           (g : Statics) (command : string) (stringArguments : list string)
           (commandRetries : Z) (s : Session) : Prop :=
  let s0 := dispatch_session command stringArguments s in
  let u0 := dispatch_receiver command stringArguments s in
  let s1 := snd (Reinitialize_body s0) in
  let s2 := dispatch_session command stringArguments s1 in
  let u2 := dispatch_receiver command stringArguments s1 in
  signal_set s0 u0 = true -> commandRetries <> 0 -> signal_set s2 u2 = false ->
  exists t s',
    RunEx g command stringArguments commandRetries s = (t, Normal u2 s')
    /\ IsError (GetError u2) = false
    /\ count_reinitialize t = 1%nat.


End Engine.

(** ** Client-view membership *)

(** Modelled from the spec: the view patterns are matched by [FileMap]
    (commands/file_map.h), which is not among the sources.  The only
    pattern form the spec shows (P5, P6) is a literal prefix closed by the
    wildcard [...]; [wildcard_prefix] gives that prefix. *)
Fixpoint wildcard_prefix (pattern : string) : option string :=
  match pattern with
  | EmptyString => None
  | String c rest =>
      if String.eqb pattern "..." then Some EmptyString
      else match wildcard_prefix rest with
           | Some pre => Some (String c pre)
           | None => None
           end
  end.

(** Modelled from the spec: a pattern closed by [...] matches the paths
    that start with its prefix; any other pattern matches itself only. *)
Definition view_matches (pattern path : string) : bool :=
  match wildcard_prefix pattern with
  | Some pre => String.prefix pre path
  | None => String.eqb pattern path
  end.

(** Modelled from the spec: the body of [P4API::IsDepotPathUnderClientSpec]
    (declared at p4_api.h:64) is in p4_api.cc, which is not among the
    sources.  Section 4.3: the rules are read in order and the last one
    that matches decides (last-match-wins); with no match the path is
    outside the view. *)
Definition IsDepotPathUnderClientSpec {ClientApi : Type}
           (s : P4API ClientApi) (depotPath : string) : bool :=
  fold_left
    (fun verdict rule =>
       if view_matches (depot_pattern rule) depotPath
       then is_include rule else verdict)
    (m_ClientMapping s) false.

(** The wording of the spec, as a proposition: some include rule matches,
    and the last matching rule of the list is not an exclude rule. *)
Definition matches_some_include (rules : FileMap) (depotPath : string) : Prop :=
  exists rule, In rule rules /\ is_include rule = true
               /\ view_matches (depot_pattern rule) depotPath = true.

Definition last_match_not_exclude (rules : FileMap) (depotPath : string) : Prop :=
  forall before rule after,
    rules = before ++ rule :: after ->
    view_matches (depot_pattern rule) depotPath = true ->
    (forall later, In later after ->
                   view_matches (depot_pattern later) depotPath = false) ->
    is_include rule <> false.

(** ** A scripted protocol client *)

(** A stand-in for the server used to run the engine on concrete inputs: it
    answers the dispatches and the connection attempts from two lists and
    falls back on fixed answers when a list is used up. *)
Module Script.

Record Conn : Type := mkConn {
  is_dropped : bool;
  replies : list (bool * Error);
  default_reply : bool * Error;
  init_results : list bool;
  default_init : bool
}.

Definition run (command : string) (ui : Error) (c : Conn) : Conn * Error :=
  match replies c with
  | [] => (mkConn (fst (default_reply c)) [] (default_reply c)
                  (init_results c) (default_init c),
           snd (default_reply c))
  | (d, e) :: rest =>
      (mkConn d rest (default_reply c) (init_results c) (default_init c), e)
  end.

Definition init (c : Conn) : bool * Conn :=
  match init_results c with
  | [] => (default_init c, c)
  | ok :: rest =>
      (ok, mkConn (is_dropped c) (replies c) (default_reply c) rest
                  (default_init c))
  end.

Definition final (c : Conn) : bool * Conn := (true, c).

Definition ops : ClientApiOps Conn Error :=
  {| SetArgv := fun _ c => c;
     Run := run;
     Dropped := is_dropped;
     Init := init;
     Final := final |}.

(** The simplest receiver: it keeps the error and nothing else. *)
#[global] Instance ErrorResult : Result Error :=
  {| new_T := NoError; GetError := fun e => e |}.

Definition session (c : Conn) (usage : Z) : P4API Conn := mkP4API c [] usage.

(** A server that answers every dispatch with [reply] after the scripted
    ones, and every connection attempt with [init_ok] after the scripted
    ones. *)
Definition conn (scripted : list (bool * Error)) (reply : bool * Error)
           (inits : list bool) (init_ok : bool) : Conn :=
  mkConn false scripted reply inits init_ok.

End Script.

(** ** Concrete inputs *)

Module Example.

(** A client that is always offline: every dispatch leaves the transport
    dropped and no connection attempt succeeds. *)
Definition offline : ClientApiOps unit Error :=
  {| SetArgv := fun _ c => c;
     Run := fun _ _ c => (c, NoError);
     Dropped := fun _ => true;
     Init := fun c => (false, c);
     Final := fun c => (true, c) |}.

(** A connected client whose server answers every command with a
    recoverable error. *)
Definition erroring : ClientApiOps unit Error :=
  {| SetArgv := fun _ c => c;
     Run := fun _ _ c => (c, RecoverableError);
     Dropped := fun _ => false;
     Init := fun c => (true, c);
     Final := fun c => (true, c) |}.

Definition command : string := "changes".
Definition arguments : list string := ["-m1"; "//depot/main/..."].

(** A server that answers every command and accepts every reconnection. *)
Definition healthy : Script.Conn := Script.conn [] (false, NoError) [] true.

(** A server that answers every command and refuses every reconnection. *)
Definition no_reconnect : Script.Conn := Script.conn [] (false, NoError) [] false.

(** A server that fails the first command with a recoverable error and
    answers from then on. *)
Definition flaky : Script.Conn :=
  Script.conn [(false, RecoverableError)] (false, NoError) [] true.

(** A session whose next command takes the usage counter past a refresh
    threshold of 1000. *)
Definition threshold : Z := 1000.
Definition at_threshold (c : Script.Conn) : P4API Script.Conn :=
  Script.session c threshold.

End Example.

(** ** Vocabulary for further statements *)

(** The seconds a trace spends in [sleep_for]. *)
Fixpoint slept (t : list event) : Z :=
  match t with
  | [] => 0
  | ESleep seconds :: t' => seconds + slept t'
  | _ :: t' => slept t'
  end.

Definition is_exit (e : event) : bool :=
  match e with EExit _ => true | _ => false end.

(** What an event of a call [RunEx(command, stringArguments, _)] may carry:
    the command and the arguments of the call, waits of 5 seconds, exit
    status 1. *)
Definition event_of_call (command : string) (stringArguments : list string)
           (e : event) : Prop :=
  match e with
  | ESleep seconds => seconds = 5
  | ESetArgv argv => argv = stringArguments
  | ERun c => c = command
  | EExit status => status = 1
  | ELog _ _ | EReinitialize | EDeinitialize => True
  end.

(** Neither the end of the process nor a call of [Deinitialize]. *)
Definition quiet (e : event) : Prop :=
  is_exit e = false /\ is_deinitialize e = false.

(** The effects of one pass of the retry loop, log lines apart. *)
Definition retry_pass (command : string) (stringArguments : list string)
  : list event :=
  [ESleep 5; EReinitialize; ESetArgv stringArguments; ERun command].

Section Attempts.

Context {ClientApi T : Type}.
Context (api : ClientApiOps ClientApi T).
Context {R : Result T}.

(** The receiver and the session after [k] more passes of the retry loop
    (p4_api.h:122-136: [Reinitialize], then the redispatch), started with
    receiver [u] on session [s]. *)
Fixpoint after_retries (command : string) (stringArguments : list string)
         (k : nat) (u : T) (s : P4API ClientApi) : T * P4API ClientApi :=
  match k with
  | O => (u, s)
  | S k' =>
      after_retries command stringArguments k'
        (dispatch_receiver api command stringArguments (snd (Reinitialize_body api s)))
        (dispatch_session api command stringArguments (snd (Reinitialize_body api s)))
  end.

(** The dropped-or-error signal is set before each of the next [k] passes. *)
Fixpoint signal_stays_set (command : string) (stringArguments : list string)
         (k : nat) (u : T) (s : P4API ClientApi) : bool :=
  match k with
  | O => true
  | S k' =>
      signal_set api s u
      && signal_stays_set command stringArguments k'
           (dispatch_receiver api command stringArguments (snd (Reinitialize_body api s)))
           (dispatch_session api command stringArguments (snd (Reinitialize_body api s)))
  end.

End Attempts.

(** Further concrete inputs. *)
Module Example2.

(** A server that answers every command, refuses the first reconnection
    and accepts the later ones. *)
Definition reconnects_late : Script.Conn :=
  Script.conn [] (false, NoError) [false] true.

(** A server that fails the first command with a recoverable error, drops
    the transport on the second and answers from the third on. *)
Definition recovers_on_third : Script.Conn :=
  Script.conn [(false, RecoverableError); (true, NoError)] (false, NoError)
              [] true.

End Example2.

(** ** Vocabulary for the retry and refresh cycles *)

Section Passes.

Context {ClientApi T : Type}.
Context (api : ClientApiOps ClientApi T).
Context {R : Result T}.

(** The trace, log lines included, of the next [k] passes of the retry loop
    started with receiver [u] on session [s]. *)
Fixpoint retries_trace (command : string) (stringArguments : list string)
         (k : nat) (u : T) (s : P4API ClientApi) : list event :=
  match k with
  | O => []
  | S k' =>
      retry_iteration_trace (fst (Reinitialize_body api s)) command stringArguments
      ++ retries_trace command stringArguments k'
           (dispatch_receiver api command stringArguments (snd (Reinitialize_body api s)))
           (dispatch_session api command stringArguments (snd (Reinitialize_body api s)))
  end.




End Passes.

(** * Facts *)

(** ** The monad *)

Section MonadFacts.
Context {S : Type}.

Lemma prepend_nil {A} (r : list event * outcome S A) : prepend [] r = r.
Proof. destruct r; reflexivity. Qed.

Lemma prepend_prepend {A} t1 t2 (r : list event * outcome S A) :
  prepend t1 (prepend t2 r) = prepend (t1 ++ t2) r.
Proof. unfold prepend; cbn. now rewrite app_assoc. Qed.

Lemma bind_normal {A B} (m : M S A) (f : A -> M S B) s t a s' :
  m s = (t, Normal a s') -> bind m f s = prepend t (f a s').
Proof. unfold bind, prepend. intros ->. now destruct (f a s'). Qed.

Lemma bind_eq {A B} (m m' : M S A) (f : A -> M S B) s s' :
  m s = m' s' -> bind m f s = bind m' f s'.
Proof. unfold bind. now intros ->. Qed.

Lemma bind_exited {A B} (m : M S A) (f : A -> M S B) s t c s' :
  m s = (t, Exited c s') -> bind m f s = (t, Exited c s').
Proof. unfold bind. now intros ->. Qed.

Lemma bind_bind {A B C} (m : M S A) (f : A -> M S B) (g : B -> M S C) s :
  bind (bind m f) g s = bind m (fun a => bind (f a) g) s.
Proof.
  unfold bind. destruct (m s) as [t [a s'| | |]]; try reflexivity.
  destruct (f a s') as [t' [b s''| | |]]; try reflexivity.
  destruct (g b s'') as [t'' o]. now rewrite app_assoc.
Qed.

Lemma bind_ret {A B} (a : A) (f : A -> M S B) s : bind (ret a) f s = f a s.
Proof. unfold bind, ret. now destruct (f a s). Qed.

Lemma bind_emit {B} e (f : unit -> M S B) s :
  bind (emit e) f s = prepend [e] (f tt s).
Proof. now apply bind_normal. Qed.

Lemma bind_gets {A B} (p : S -> A) (f : A -> M S B) s :
  bind (gets p) f s = f (p s) s.
Proof. unfold bind, gets. now destruct (f (p s) s). Qed.

Lemma bind_modify {B} (p : S -> S) (f : unit -> M S B) s :
  bind (modify p) f s = f tt (p s).
Proof. unfold bind, modify. now destruct (f tt (p s)). Qed.

Lemma bind_int_value {B} o (f : Z -> M S B) s :
  bind (int_value o) f s
  = match o with Some z => f z s | None => ([], Undefined) end.
Proof. destruct o; cbn; [apply bind_ret | reflexivity]. Qed.

Lemma ERR_then_exit {A} msg status (s : S) :
  (ERR msg ;; std_exit status) s
  = ([ELog LogERR msg; EExit status], @Exited S A status s).
Proof. reflexivity. Qed.

Lemma bind_std_exit {A B} status (f : A -> M S B) s :
  bind (std_exit status) f s = ([EExit status], Exited status s).
Proof. reflexivity. Qed.

End MonadFacts.

(** ** Traces *)

Lemma actions_app t1 t2 : actions (t1 ++ t2) = actions t1 ++ actions t2.
Proof. apply filter_app. Qed.

Lemma count_reinitialize_app t1 t2 :
  count_reinitialize (t1 ++ t2)
  = (count_reinitialize t1 + count_reinitialize t2)%nat.
Proof. unfold count_reinitialize. now rewrite filter_app, length_app. Qed.

Lemma count_deinitialize_app t1 t2 :
  count_deinitialize (t1 ++ t2)
  = (count_deinitialize t1 + count_deinitialize t2)%nat.
Proof. unfold count_deinitialize. now rewrite filter_app, length_app. Qed.

Lemma count_reinitialize_actions t :
  count_reinitialize (actions t) = count_reinitialize t.
Proof.
  unfold count_reinitialize, actions.
  induction t as [|e t IH]; [reflexivity|].
  destruct e; cbn; rewrite ?IH; reflexivity.
Qed.

Lemma fst_prepend {S A} t (r : list event * outcome S A) :
  fst (prepend t r) = t ++ fst r.
Proof. reflexivity. Qed.

Lemma snd_prepend {S A} t (r : list event * outcome S A) :
  snd (prepend t r) = snd r.
Proof. reflexivity. Qed.

Lemma prepend_pair {S A} t t' (o : outcome S A) :
  prepend t (t', o) = (t ++ t', o).
Proof. reflexivity. Qed.

(** ** The calls [RunEx] makes *)

Section EngineSteps.

Context {ClientApi T : Type}.
Context (api : ClientApiOps ClientApi T).
Context {R : Result T}.

Local Abbreviation Session := (P4API ClientApi).

Lemma dispatch_eq (command : string) (args : list string) (s : Session) :
  dispatch api command args s
  = ([ESetArgv args; ERun command],
     Normal (dispatch_receiver api command args s)
            (dispatch_session api command args s)).
Proof.
  unfold dispatch, dispatch_receiver, dispatch_session, bind,
    ClientAPI_SetArgv, ClientAPI_Run. cbn.
  destruct (Run api command new_T (SetArgv api args (m_ClientAPI s))) as [c ui].
  reflexivity.
Qed.

Lemma bind_dispatch {B} command args (f : T -> M Session B) (s : Session) :
  bind (dispatch api command args) f s
  = prepend [ESetArgv args; ERun command]
      (f (dispatch_receiver api command args s)
         (dispatch_session api command args s)).
Proof. apply bind_normal, dispatch_eq. Qed.

Lemma bind_Reinitialize {B} (f : bool -> M Session B) (s : Session) :
  bind (Reinitialize api) f s
  = prepend [EReinitialize]
      (f (fst (Reinitialize_body api s)) (snd (Reinitialize_body api s))).
Proof.
  apply bind_normal. unfold Reinitialize.
  now destruct (Reinitialize_body api s).
Qed.

Lemma bind_Deinitialize {B} (f : bool -> M Session B) (s : Session) :
  bind (Deinitialize api) f s
  = prepend [EDeinitialize]
      (f (fst (Deinitialize_body api s)) (snd (Deinitialize_body api s))).
Proof.
  apply bind_normal. unfold Deinitialize.
  now destruct (Deinitialize_body api s).
Qed.

Lemma bind_dropped_or_error {B} (u : T) (f : bool -> M Session B) (s : Session) :
  bind (dropped_or_error api u) f s = f (signal_set api s u) s.
Proof.
  unfold dropped_or_error, ClientAPI_Dropped.
  now rewrite bind_bind, bind_gets, bind_ret.
Qed.

End EngineSteps.

(** Symbolic execution of a monadic computation, one call at a time. *)
Ltac step :=
  repeat first
    [ rewrite bind_bind | rewrite bind_ret | rewrite bind_gets
    | rewrite bind_modify | rewrite bind_dropped_or_error
    | rewrite bind_dispatch | rewrite bind_Reinitialize
    | rewrite bind_Deinitialize | rewrite bind_int_value
    | rewrite bind_std_exit
    | unfold ERR, WARN, SUCCESS, sleep_for; rewrite bind_emit
    | rewrite prepend_prepend | rewrite prepend_nil ]; cbn beta.

(** ** The retry loop *)

Section RunExFacts.

Context {ClientApi T : Type}.
Context (api : ClientApiOps ClientApi T).
Context {R : Result T}.

Local Abbreviation Session := (P4API ClientApi).

Lemma retry_loop_clear fuel command args retries (u : T) (s : Session) :
  signal_set api s u = false ->
  retry_loop api fuel command args retries u s = ([], Normal u s).
Proof.
  intros H. destruct fuel; cbn [retry_loop]; step; now rewrite H.
Qed.

Lemma retry_loop_spent fuel command args (u : T) (s : Session) :
  retry_loop api fuel command args 0 u s = ([], Normal u s).
Proof.
  destruct fuel; cbn [retry_loop]; step;
    now destruct (signal_set api s u).
Qed.

Lemma retry_loop_no_fuel command args retries (u : T) (s : Session) :
  signal_set api s u = true -> retries <> 0 ->
  retry_loop api 0 command args retries u s = ([], OutOfFuel).
Proof.
  intros H Hr. cbn [retry_loop]. step. rewrite H.
  now destruct (Z.eqb_spec retries 0).
Qed.

Lemma retry_loop_iterate fuel command args retries (u : T) (s : Session) :
  signal_set api s u = true -> retries <> 0 -> INT_MIN < retries ->
  retry_loop api (S fuel) command args retries u s
  = prepend (retry_iteration_trace (fst (Reinitialize_body api s)) command args)
      (retry_loop api fuel command args (retries - 1)
         (dispatch_receiver api command args (snd (Reinitialize_body api s)))
         (dispatch_session api command args (snd (Reinitialize_body api s)))).
Proof.
  intros H Hr Hmin.
  cbn [retry_loop]. step. rewrite H.
  destruct (Z.eqb_spec retries 0) as [|_]; [contradiction|].
  step. unfold int_pred.
  destruct (Z.ltb_spec INT_MIN retries) as [_|]; [|lia].
  destruct (fst (Reinitialize_body api s)); step; reflexivity.
Qed.

Lemma retry_loop_underflow fuel command args retries (u : T) (s : Session) :
  signal_set api s u = true -> retries <= INT_MIN ->
  retry_loop api (S fuel) command args retries u s
  = (retry_iteration_trace (fst (Reinitialize_body api s)) command args,
     Undefined).
Proof.
  intros H Hmin.
  cbn [retry_loop]. step. rewrite H.
  destruct (Z.eqb_spec retries 0) as [E|_];
    [rewrite E in Hmin; now compute in Hmin|].
  step. unfold int_pred.
  destruct (Z.ltb_spec INT_MIN retries) as [|_]; [lia|].
  destruct (fst (Reinitialize_body api s)); step; reflexivity.
Qed.

Lemma actions_retry_iteration ok command args :
  actions (retry_iteration_trace ok command args)
  = [ESleep 5; EReinitialize; ESetArgv args; ERun command].
Proof. destruct ok; reflexivity. Qed.

Lemma count_reinitialize_retry_iteration ok command args :
  count_reinitialize (retry_iteration_trace ok command args) = 1%nat.
Proof. destruct ok; reflexivity. Qed.

Lemma count_deinitialize_retry_iteration ok command args :
  count_deinitialize (retry_iteration_trace ok command args) = 0%nat.
Proof. destruct ok; reflexivity. Qed.

(** The lifecycle calls leave the usage counter alone. *)
Lemma Deinitialize_body_usage (s : Session) :
  m_Usage (snd (Deinitialize_body api s)) = m_Usage s.
Proof.
  unfold Deinitialize_body. now destruct (Final api (m_ClientAPI s)).
Qed.

Lemma Initialize_body_usage (s : Session) :
  m_Usage (snd (Initialize_body api s)) = m_Usage s.
Proof.
  unfold Initialize_body. now destruct (Init api (m_ClientAPI s)).
Qed.

Lemma Reinitialize_body_usage (s : Session) :
  m_Usage (snd (Reinitialize_body api s)) = m_Usage s.
Proof.
  unfold Reinitialize_body.
  pose proof (Deinitialize_body_usage s) as H1.
  destruct (Deinitialize_body api s) as [ok1 s1]; cbn in H1.
  pose proof (Initialize_body_usage s1) as H2.
  destruct (Initialize_body api s1) as [ok2 s2]; cbn in *. congruence.
Qed.

Lemma dispatch_session_usage command args (s : Session) :
  m_Usage (dispatch_session api command args s) = m_Usage s.
Proof. reflexivity. Qed.

Lemma retry_loop_head fuel command args retries u s :
  retry_head api fuel command args retries u s.
Proof.
  destruct (signal_set api s u) eqn:Hsig.
  2: { apply head_clear; [assumption | now apply retry_loop_clear]. }
  destruct (Z.eq_dec retries 0) as [->|Hr].
  { apply head_spent; [assumption | reflexivity | apply retry_loop_spent]. }
  destruct fuel as [|fuel'].
  { apply head_no_fuel; try assumption; [reflexivity|].
    now apply retry_loop_no_fuel. }
  destruct (Z_lt_le_dec INT_MIN retries) as [Hlt|Hle].
  - eapply head_iterate; try eassumption; [reflexivity|].
    now apply retry_loop_iterate.
  - eapply head_underflow; try eassumption; [reflexivity|].
    now apply retry_loop_underflow.
Qed.

(** The loop neither touches the usage counter, nor calls [Deinitialize],
    nor ends the process. *)
Lemma retry_loop_frame fuel command args :
  forall retries u s,
    count_deinitialize (fst (retry_loop api fuel command args retries u s)) = 0%nat
    /\ (forall c s', snd (retry_loop api fuel command args retries u s)
                     <> Exited c s')
    /\ (forall u' s', snd (retry_loop api fuel command args retries u s)
                      = Normal u' s' -> m_Usage s' = m_Usage s).
Proof.
  induction fuel as [|fuel IH]; intros retries u s.
  - destruct (retry_loop_head 0 command args retries u s)
      as [_ E|_ _ E|_ _ _ E|f _ _ _ Hf E|f _ _ _ Hf E];
      try discriminate Hf; rewrite E; cbn [fst snd];
      (split; [reflexivity | split; [discriminate |]]);
      try discriminate; intros ? ? [= _ <-]; reflexivity.
  - destruct (retry_loop_head (S fuel) command args retries u s)
      as [_ E|_ _ E|_ _ Hf E|f _ _ _ Hf E|f _ _ _ Hf E];
      try discriminate Hf.
    + rewrite E; cbn [fst snd].
      split; [reflexivity | split; [discriminate |]].
      intros ? ? [= _ <-]; reflexivity.
    + rewrite E; cbn [fst snd].
      split; [reflexivity | split; [discriminate |]].
      intros ? ? [= _ <-]; reflexivity.
    + rewrite E; cbn [fst snd].
      split; [apply count_deinitialize_retry_iteration |].
      split; discriminate.
    + injection Hf as <-. rewrite E.
      rewrite fst_prepend, snd_prepend, count_deinitialize_app,
        count_deinitialize_retry_iteration.
      destruct (IH (retries - 1)
                  (dispatch_receiver api command args (snd (Reinitialize_body api s)))
                  (dispatch_session api command args (snd (Reinitialize_body api s))))
        as (H1 & H2 & H3).
      repeat split; [now rewrite H1 | exact H2 |].
      intros u' s' Hn. rewrite (H3 _ _ Hn), dispatch_session_usage.
      apply Reinitialize_body_usage.
Qed.

(** The allowance [retry_fuel] is never used up: the loop of the source
    always comes to an end, by leaving or by an undefined [retries--]. *)
Lemma retry_loop_enough_fuel fuel command args :
  forall retries u s,
    (Z.to_nat (if 0 <=? retries then retries else retries - INT_MIN)%Z < fuel)%nat ->
    snd (retry_loop api fuel command args retries u s) <> OutOfFuel.
Proof.
  induction fuel as [|fuel IH]; intros retries u s Hfuel; [lia|].
  destruct (retry_loop_head (S fuel) command args retries u s)
    as [_ E|_ _ E|_ _ Hf E|f _ _ _ Hf E|f _ Hr Hmin Hf E];
    try discriminate Hf; try (rewrite E; discriminate).
  injection Hf as <-. rewrite E, snd_prepend. apply IH.
  change INT_MIN with (-2147483648) in *.
  destruct (Z.leb_spec 0 retries), (Z.leb_spec 0 (retries - 1)); lia.
Qed.

Lemma retry_phase_eq command args commandRetries (s : Session) :
  retry_phase api command args commandRetries s
  = prepend [ESetArgv args; ERun command]
      (retry_loop api (retry_fuel commandRetries) command args commandRetries
         (dispatch_receiver api command args s)
         (dispatch_session api command args s)).
Proof. unfold retry_phase. now rewrite bind_dispatch. Qed.

Lemma retry_phase_within_eq fuel command args commandRetries (s : Session) :
  retry_phase_within api fuel command args commandRetries s
  = prepend [ESetArgv args; ERun command]
      (retry_loop api fuel command args commandRetries
         (dispatch_receiver api command args s)
         (dispatch_session api command args s)).
Proof. unfold retry_phase_within. now rewrite bind_dispatch. Qed.

Lemma retry_phase_frame command args commandRetries (s : Session) :
  count_deinitialize (fst (retry_phase api command args commandRetries s)) = 0%nat
  /\ (forall c s', snd (retry_phase api command args commandRetries s)
                   <> Exited c s')
  /\ snd (retry_phase api command args commandRetries s) <> OutOfFuel
  /\ (forall u' s', snd (retry_phase api command args commandRetries s)
                    = Normal u' s' -> m_Usage s' = m_Usage s).
Proof.
  rewrite retry_phase_eq, fst_prepend, snd_prepend, count_deinitialize_app.
  destruct (retry_loop_frame (retry_fuel commandRetries) command args
              commandRetries (dispatch_receiver api command args s)
              (dispatch_session api command args s)) as (H1 & H2 & H3).
  rewrite H1. repeat split; [exact H2| |exact H3].
  apply retry_loop_enough_fuel. unfold retry_fuel. lia.
Qed.

(** ** The check after the loop *)

Lemma bind_fatal_check_exit {B} g (u : T) (f : unit -> M Session B) (s : Session) :
  unrecoverable api s u = true ->
  bind (fatal_check api g u) f s
  = ([ELog LogERR [FStr "Exiting due to receiving errors even after retrying ";
                   FInt (CommandRetries g); FStr " times"];
      EDeinitialize; EExit 1],
     Exited 1 (snd (Deinitialize_body api s))).
Proof.
  unfold unrecoverable, fatal_check, ClientAPI_Dropped. intros H.
  step. rewrite H. step. reflexivity.
Qed.

Lemma bind_fatal_check_pass {B} g (u : T) (f : unit -> M Session B) (s : Session) :
  unrecoverable api s u = false ->
  bind (fatal_check api g u) f s = f tt s.
Proof.
  unfold unrecoverable, fatal_check, ClientAPI_Dropped. intros H.
  step. rewrite H. now step.
Qed.

(** ** The refresh loop *)

Lemma refresh_loop_skip fuel g refreshRetries (s : Session) :
  refreshRetries <= 0 ->
  refresh_loop api fuel g refreshRetries s = ([], Normal refreshRetries s).
Proof.
  intros H. destruct fuel; cbn [refresh_loop];
    destruct (Z.gtb_spec refreshRetries 0); (lia || reflexivity).
Qed.

Lemma refresh_loop_success fuel g refreshRetries (s : Session) :
  0 < refreshRetries -> fst (Reinitialize_body api s) = true ->
  refresh_loop api (S fuel) g refreshRetries s
  = ([ELog LogWARN [FStr "Trying to refresh the connection due to age (";
                    FInt (m_Usage s); FStr " > ";
                    FInt (CommandRefreshThreshold g); FStr ")."];
      EReinitialize;
      ELog LogSUCCESS [FStr "Connection was refreshed"]],
     Normal refreshRetries (snd (Reinitialize_body api s))).
Proof.
  intros H Hok. cbn [refresh_loop].
  destruct (Z.gtb_spec refreshRetries 0); [|lia].
  step. rewrite Hok. step. reflexivity.
Qed.

(** The trace of one failed attempt, p4_api.h:154-161. *)
Lemma refresh_loop_failure fuel g refreshRetries (s : Session) :
  0 < refreshRetries -> fst (Reinitialize_body api s) = false ->
  refresh_loop api (S fuel) g refreshRetries s
  = prepend
      [ELog LogWARN [FStr "Trying to refresh the connection due to age (";
                     FInt (m_Usage s); FStr " > ";
                     FInt (CommandRefreshThreshold g); FStr ")."];
       EReinitialize;
       ELog LogERR [FStr "Could not refresh connection due to old age. Retrying in 5 seconds"];
       ESleep 5]
      (refresh_loop api fuel g (refreshRetries - 1)
                    (snd (Reinitialize_body api s))).
Proof.
  intros H Hok. cbn [refresh_loop].
  destruct (Z.gtb_spec refreshRetries 0); [|lia].
  step. rewrite Hok. step. unfold int_pred.
  destruct (Z.ltb_spec INT_MIN refreshRetries) as [_|Hmin];
    [| change INT_MIN with (-2147483648) in Hmin; lia].
  reflexivity.
Qed.

(** What the refresh loop does with a budget it has the allowance for: it
    ends normally, keeps the usage counter, calls [Deinitialize] never and
    [Reinitialize] until the first success; it leaves [refreshRetries] at
    zero exactly when every attempt failed. *)
Lemma refresh_loop_result g fuel :
  forall refreshRetries (s : Session),
    0 <= refreshRetries <= Z.of_nat fuel ->
    exists t r s',
      refresh_loop api fuel g refreshRetries s = (t, Normal r s')
      /\ m_Usage s' = m_Usage s
      /\ count_deinitialize t = 0%nat
      /\ ((r = 0 /\ reinitialize_fails api (Z.to_nat refreshRetries) s = true
           /\ s' = reinitialized api (Z.to_nat refreshRetries) s
           /\ count_reinitialize t = Z.to_nat refreshRetries
           /\ actions t
              = List.concat (repeat [EReinitialize; ESleep 5]
                               (Z.to_nat refreshRetries)))
          \/ (0 < r <= refreshRetries
              /\ reinitialize_fails api (Z.to_nat refreshRetries) s = false
              /\ count_reinitialize t = Z.to_nat (refreshRetries - r + 1))).
Proof.
  induction fuel as [|fuel IH]; intros n s Hn.
  - assert (n = 0) as -> by lia. rewrite refresh_loop_skip by lia.
    exists [], 0, s. repeat split; try reflexivity. left. repeat split.
  - destruct (Z.eq_dec n 0) as [->|Hnz].
    { rewrite refresh_loop_skip by lia.
      exists [], 0, s. repeat split; try reflexivity. left. repeat split. }
    assert (Hsucc : Z.to_nat n = S (Z.to_nat (n - 1))) by lia.
    destruct (fst (Reinitialize_body api s)) eqn:Hok.
    + rewrite refresh_loop_success by (assumption || lia).
      eexists _, n, _. split; [reflexivity|].
      split; [apply Reinitialize_body_usage|]. split; [reflexivity|].
      right. split; [lia|]. split.
      * rewrite Hsucc. cbn [reinitialize_fails]. now rewrite Hok.
      * replace (n - n + 1) with 1 by lia. reflexivity.
    + rewrite refresh_loop_failure by (assumption || lia).
      destruct (IH (n - 1) (snd (Reinitialize_body api s)))
        as (t & r & s' & E & Hu & Hd & Hcases); [lia|].
      rewrite E, prepend_pair. eexists _, r, s'. split; [reflexivity|].
      split; [now rewrite Hu, Reinitialize_body_usage|].
      split; [now rewrite count_deinitialize_app, Hd|].
      rewrite Hsucc. cbn [reinitialize_fails reinitialized repeat List.concat].
      rewrite Hok, count_reinitialize_app, actions_app. cbn [negb andb].
      destruct Hcases as [(-> & Hf & Hs & Hc & Ha)|(Hr & Hf & Hc)].
      * left. repeat split; try assumption.
        -- now rewrite Hc.
        -- now rewrite Ha.
      * right. split; [lia|]. split; [assumption|].
        rewrite Hc. replace (n - r + 1) with ((n - 1 - r + 1) + 1) by lia.
        rewrite Z2Nat.inj_add by lia. cbn. lia.
Qed.

(** ** The usage counter and the refresh *)

Lemma usage_refresh_overflow g (s : Session) :
  int_succ (m_Usage s) = None -> usage_refresh api g s = ([], Undefined).
Proof. unfold usage_refresh. intros H. step. now rewrite H. Qed.

Lemma usage_refresh_below g (s : Session) usage' :
  int_succ (m_Usage s) = Some usage' -> usage' <= CommandRefreshThreshold g ->
  usage_refresh api g s = ([], Normal tt (set_Usage s usage')).
Proof.
  unfold usage_refresh. intros H Hle. step. rewrite H. step.
  destruct (Z.gtb_spec usage' (CommandRefreshThreshold g)); [lia|].
  reflexivity.
Qed.

Lemma usage_refresh_above g (s : Session) usage' :
  int_succ (m_Usage s) = Some usage' -> CommandRefreshThreshold g < usage' ->
  usage_refresh api g s
  = bind (refresh_loop api (Z.to_nat (CommandRetries g)) g (CommandRetries g))
         (fun refreshRetries =>
            if refreshRetries =? 0 then
              ERR [FStr "Could not refresh the connection after ";
                   FInt (CommandRetries g); FStr " retries. Exiting."] ;;
              std_exit 1
            else ret tt)
         (set_Usage s usage').
Proof.
  unfold usage_refresh. intros H Hlt. step. rewrite H. step.
  destruct (Z.gtb_spec usage' (CommandRefreshThreshold g)); [|lia].
  reflexivity.
Qed.

End RunExFacts.

(** * The claims about [RunEx] *)

Section RunExClaims.

Context {ClientApi T : Type}.
Context (api : ClientApiOps ClientApi T).
Context {R : Result T}.

Local Abbreviation Session := (P4API ClientApi).

(** While every dispatch leaves the transport dropped, a budget of [n]
    is spent in [n] passes. *)
Lemma retry_loop_always_dropped command args :
  always_dropped api ->
  forall (n fuel : nat) (u : T) (s : Session),
    (n <= fuel)%nat -> Dropped api (m_ClientAPI s) = true ->
    exists t u' s',
      retry_loop api fuel command args (Z.of_nat n) u s = (t, Normal u' s')
      /\ Dropped api (m_ClientAPI s') = true
      /\ actions t
         = List.concat
             (repeat [ESleep 5; EReinitialize; ESetArgv args; ERun command] n).
Proof.
  intros Hdrop. induction n as [|n IH]; intros fuel u s Hfuel Hs.
  - exists [], u, s. split; [apply retry_loop_spent|]. now split.
  - destruct fuel as [|fuel]; [lia|].
    rewrite retry_loop_iterate;
      [| unfold signal_set; now rewrite Hs | lia
       | change INT_MIN with (-2147483648); lia].
    replace (Z.of_nat (S n) - 1) with (Z.of_nat n) by lia.
    destruct (IH fuel
                (dispatch_receiver api command args (snd (Reinitialize_body api s)))
                (dispatch_session api command args (snd (Reinitialize_body api s))))
      as (t & u' & s' & E & Hs' & Ht); [lia | apply Hdrop |].
    rewrite E, prepend_pair. eexists _, u', s'. split; [reflexivity|].
    split; [assumption|].
    rewrite actions_app, actions_retry_iteration, Ht. reflexivity.
Qed.

Lemma count_reinitialize_passes command args n :
  count_reinitialize
    (List.concat (repeat [ESleep 5; EReinitialize; ESetArgv args; ERun command] n))
  = n.
Proof.
  induction n as [|n IH]; [reflexivity|].
  cbn [repeat List.concat]. rewrite count_reinitialize_app, IH. reflexivity.
Qed.

(** C2: when every dispatch reports the transport as dropped, a call with
    retry budget [N >= 0] runs the command once, then makes exactly [N]
    passes, each a 5-second wait followed by [Reinitialize] and the
    redispatch, and then calls [Deinitialize] and ends the process with
    status 1. *)
Theorem always_dropped_spends_budget g command args N (s : Session) :
  always_dropped api -> 0 <= N ->
  exists t s',
    RunEx api g command args N s = (t, Exited 1 s')
    /\ actions t
       = [ESetArgv args; ERun command]
         ++ List.concat
              (repeat [ESleep 5; EReinitialize; ESetArgv args; ERun command]
                      (Z.to_nat N))
         ++ [EDeinitialize; EExit 1]
    /\ count_reinitialize t = Z.to_nat N.
Proof.
  intros Hdrop HN.
  destruct (retry_loop_always_dropped command args Hdrop (Z.to_nat N)
              (retry_fuel N) (dispatch_receiver api command args s)
              (dispatch_session api command args s))
    as (t & u' & s' & E & Hs' & Ht).
  { unfold retry_fuel. destruct (Z.leb_spec 0 N); lia. }
  { apply Hdrop. }
  rewrite Z2Nat.id in E by assumption.
  unfold RunEx.
  rewrite (bind_normal _ _ _ _ _ _
             (eq_trans (retry_phase_eq api command args N s)
                       (f_equal (prepend _) E))).
  rewrite bind_fatal_check_exit by (unfold unrecoverable; now rewrite Hs').
  rewrite prepend_pair. eexists _, _. split; [reflexivity|].
  match goal with |- ?A /\ _ => assert (Ha : A) end.
  { cbn [fst]. rewrite !actions_app, Ht. reflexivity. }
  split; [exact Ha|].
  rewrite <- count_reinitialize_actions, Ha, !count_reinitialize_app,
    count_reinitialize_passes. cbn. lia.
Qed.

Lemma always_failing_signal command args (s : Session) :
  always_failing api ->
  signal_set api (dispatch_session api command args s)
             (dispatch_receiver api command args s) = true.
Proof. intros H. apply H. Qed.

(** With a negative budget and a signal that never clears, [k] passes are
    made within any allowance of [k], as long as [retries] can still be
    decremented. *)
Lemma negative_budget_passes command args :
  always_failing api ->
  forall (k : nat) retries (u : T) (s : Session),
    signal_set api s u = true -> retries < 0 ->
    Z.of_nat k <= retries - INT_MIN ->
    exists t,
      retry_loop api k command args retries u s = (t, OutOfFuel)
      /\ count_reinitialize t = k.
Proof.
  intros Hfail. induction k as [|k IH]; intros retries u s Hsig Hneg Hk.
  - exists []. split; [apply retry_loop_no_fuel; (assumption || lia) | reflexivity].
  - rewrite retry_loop_iterate; [|assumption|lia|lia].
    destruct (IH (retries - 1)
                (dispatch_receiver api command args (snd (Reinitialize_body api s)))
                (dispatch_session api command args (snd (Reinitialize_body api s))))
      as (t & E & Hc); [now apply always_failing_signal | lia | lia |].
    rewrite E, prepend_pair. eexists. split; [reflexivity|].
    now rewrite count_reinitialize_app, count_reinitialize_retry_iteration, Hc.
Qed.

(** The loop is then left neither by [break] nor by its condition. *)
Lemma negative_budget_no_exit command args :
  always_failing api ->
  forall (fuel : nat) retries (u : T) (s : Session),
    signal_set api s u = true -> retries < 0 ->
    snd (retry_loop api fuel command args retries u s) = OutOfFuel
    \/ snd (retry_loop api fuel command args retries u s) = Undefined.
Proof.
  intros Hfail. induction fuel as [|fuel IH]; intros retries u s Hsig Hneg.
  - left. rewrite retry_loop_no_fuel; (reflexivity || assumption || lia).
  - destruct (Z_lt_le_dec INT_MIN retries) as [Hlt|Hle].
    + rewrite retry_loop_iterate, snd_prepend; [|assumption|lia|assumption].
      apply IH; [now apply always_failing_signal | lia].
    + right. now rewrite retry_loop_underflow.
Qed.

(** It ends where [retries--] is applied to [INT_MIN]. *)
Lemma negative_budget_underflow command args :
  always_failing api ->
  forall (k fuel : nat) retries (u : T) (s : Session),
    signal_set api s u = true -> retries < 0 ->
    Z.of_nat k = retries - INT_MIN -> (k < fuel)%nat ->
    exists t,
      retry_loop api fuel command args retries u s = (t, Undefined)
      /\ count_reinitialize t = S k.
Proof.
  intros Hfail. induction k as [|k IH]; intros fuel retries u s Hsig Hneg Hk Hfuel;
    (destruct fuel as [|fuel]; [lia|]).
  - rewrite retry_loop_underflow; [|assumption|lia].
    eexists. split; [reflexivity|].
    apply count_reinitialize_retry_iteration.
  - rewrite retry_loop_iterate; [|assumption|lia|lia].
    destruct (IH fuel (retries - 1)
                (dispatch_receiver api command args (snd (Reinitialize_body api s)))
                (dispatch_session api command args (snd (Reinitialize_body api s))))
      as (t & E & Hc); [now apply always_failing_signal | lia | lia | lia |].
    rewrite E, prepend_pair. eexists. split; [reflexivity|].
    now rewrite count_reinitialize_app, count_reinitialize_retry_iteration, Hc.
Qed.

(** C10: a negative retry budget is not clamped.  While every redispatch
    leaves the dropped-or-error signal set, the test [retries == 0] never
    succeeds: after [k] passes the loop is still running, for every [k] up
    to the point where [retries] has reached [INT_MIN]; on no allowance does
    the loop come to an exit; and the only end the source gives the call is
    the undefined decrement of [INT_MIN], after
    [commandRetries - INT_MIN + 1] retries. *)
Theorem negative_budget_never_exhausted command args commandRetries (s : Session) :
  always_failing api -> INT_MIN <= commandRetries < 0 ->
  (forall k : nat,
      Z.of_nat k <= commandRetries - INT_MIN ->
      exists t,
        retry_phase_within api k command args commandRetries s = (t, OutOfFuel)
        /\ count_reinitialize t = k)
  /\ (forall fuel,
         snd (retry_phase_within api fuel command args commandRetries s) = OutOfFuel
         \/ snd (retry_phase_within api fuel command args commandRetries s) = Undefined)
  /\ (forall g,
         exists t,
           RunEx api g command args commandRetries s = (t, Undefined)
           /\ count_reinitialize t = Z.to_nat (commandRetries - INT_MIN + 1)).
Proof.
  intros Hfail [Hmin Hneg].
  pose proof (always_failing_signal command args s Hfail) as Hsig.
  split; [|split].
  - intros k Hk.
    destruct (negative_budget_passes command args Hfail k commandRetries _ _
                Hsig Hneg Hk) as (t & E & Hc).
    rewrite retry_phase_within_eq, E, prepend_pair.
    eexists. split; [reflexivity|].
    now rewrite count_reinitialize_app, Hc.
  - intros fuel. rewrite retry_phase_within_eq, snd_prepend.
    now apply negative_budget_no_exit.
  - intros g.
    destruct (negative_budget_underflow command args Hfail
                (Z.to_nat (commandRetries - INT_MIN)) (retry_fuel commandRetries)
                commandRetries _ _ Hsig Hneg) as (t & E & Hc).
    { lia. }
    { unfold retry_fuel. destruct (Z.leb_spec 0 commandRetries); lia. }
    unfold RunEx, bind at 1.
    rewrite retry_phase_eq, E, prepend_pair.
    eexists. split; [reflexivity|].
    rewrite count_reinitialize_app, Hc. cbn [count_reinitialize filter List.length is_reinitialize].
    lia.
Qed.

(** [Run] is [RunEx] on the configured budget, p4_api.h:179. *)
Lemma P4API_Run_eq g command args (s : Session) :
  P4API_Run api g command args s = RunEx api g command args (CommandRetries g) s.
Proof. reflexivity. Qed.

(** What [RunEx] does once the retry phase has handed over normally. *)
Lemma RunEx_after_retry g command args commandRetries (s : Session) t u s1 :
  retry_phase api command args commandRetries s = (t, Normal u s1) ->
  RunEx api g command args commandRetries s
  = prepend t ((fatal_check api g u ;; usage_refresh api g ;; ret u) s1).
Proof.
  intros E. unfold RunEx.
  exact (bind_normal _
           (fun clientUser =>
              fatal_check api g clientUser ;; usage_refresh api g ;; ret clientUser)
           _ _ _ _ E).
Qed.

Lemma RunEx_unrecoverable g command args commandRetries (s : Session) t u s1 :
  retry_phase api command args commandRetries s = (t, Normal u s1) ->
  unrecoverable api s1 u = true ->
  RunEx api g command args commandRetries s
  = (t ++ [ELog LogERR [FStr "Exiting due to receiving errors even after retrying ";
                        FInt (CommandRetries g); FStr " times"];
           EDeinitialize; EExit 1],
     Exited 1 (snd (Deinitialize_body api s1))).
Proof.
  intros E H. rewrite (RunEx_after_retry g _ _ _ _ _ _ _ E).
  now rewrite bind_fatal_check_exit.
Qed.

Lemma RunEx_recoverable g command args commandRetries (s : Session) t u s1 :
  retry_phase api command args commandRetries s = (t, Normal u s1) ->
  unrecoverable api s1 u = false ->
  RunEx api g command args commandRetries s
  = prepend t ((usage_refresh api g ;; ret u) s1).
Proof.
  intros E H. rewrite (RunEx_after_retry g _ _ _ _ _ _ _ E).
  now rewrite bind_fatal_check_pass.
Qed.

(** C9: with [CommandRetries] at 0, a call that passes the check after the
    loop and whose incremented usage counter exceeds the threshold never
    enters the body of the refresh loop: it logs and ends the process with
    status 1 at once, and makes no [Reinitialize] call beyond those of its
    own retry loop. *)
Theorem zero_budget_refresh_exits g command args commandRetries
        (s : Session) t u s1 usage' :
  retry_phase api command args commandRetries s = (t, Normal u s1) ->
  unrecoverable api s1 u = false ->
  CommandRetries g = 0 ->
  int_succ (m_Usage s1) = Some usage' ->
  CommandRefreshThreshold g < usage' ->
  RunEx api g command args commandRetries s
  = (t ++ [ELog LogERR [FStr "Could not refresh the connection after ";
                        FInt 0; FStr " retries. Exiting."];
           EExit 1],
     Exited 1 (set_Usage s1 usage'))
  /\ count_reinitialize (fst (RunEx api g command args commandRetries s))
     = count_reinitialize t.
Proof.
  intros E Hrec Hzero Hsucc Habove.
  assert (Heq : RunEx api g command args commandRetries s
                = (t ++ [ELog LogERR [FStr "Could not refresh the connection after ";
                                      FInt 0; FStr " retries. Exiting."];
                         EExit 1],
                   Exited 1 (set_Usage s1 usage'))).
  { rewrite (RunEx_recoverable g _ _ _ _ _ _ _ E Hrec).
    rewrite (bind_eq _ _ _ _ _ (usage_refresh_above api g s1 usage' Hsucc Habove)).
    rewrite Hzero. cbn [Z.to_nat refresh_loop]. step. reflexivity. }
  split; [exact Heq|].
  rewrite Heq. cbn [fst]. rewrite count_reinitialize_app. cbn. lia.
Qed.

Lemma signal_clear_recoverable (s : Session) (u : T) :
  signal_set api s u = false -> unrecoverable api s u = false.
Proof.
  unfold signal_set, unrecoverable.
  destruct (Dropped api (m_ClientAPI s)); [discriminate|].
  now destruct (GetError u).
Qed.

Lemma signal_clear_no_error (s : Session) (u : T) :
  signal_set api s u = false -> IsError (GetError u) = false.
Proof.
  unfold signal_set. now destruct (Dropped api (m_ClientAPI s)).
Qed.

(** The usage step calls [Deinitialize] never, and what it hands on is the
    session with the counter one up. *)
Lemma usage_refresh_frame g (s : Session) :
  count_deinitialize (fst (usage_refresh api g s)) = 0%nat
  /\ (forall x s', snd (usage_refresh api g s) = Normal x s' ->
                   m_Usage s' = m_Usage s + 1).
Proof.
  destruct (int_succ (m_Usage s)) as [usage'|] eqn:Hsucc.
  2: { rewrite usage_refresh_overflow by assumption. now split. }
  assert (Hu : usage' = m_Usage s + 1).
  { unfold int_succ in Hsucc.
    destruct (m_Usage s <? INT_MAX); now inversion Hsucc. }
  destruct (Z_lt_le_dec (CommandRefreshThreshold g) usage') as [Habove|Hbelow].
  2: { rewrite (usage_refresh_below api g s usage') by assumption.
       split; [reflexivity | now intros ? ? [= _ <-]]. }
  rewrite (usage_refresh_above api g s usage') by assumption.
  destruct (Z_lt_le_dec (CommandRetries g) 0) as [Hneg|Hnn].
  - rewrite (bind_normal _ _ _ _ _ _
               (refresh_loop_skip api _ g (CommandRetries g) _ (Z.lt_le_incl _ _ Hneg))).
    destruct (Z.eqb_spec (CommandRetries g) 0); [lia|].
    split; [reflexivity | now intros ? ? [= _ <-]].
  - destruct (refresh_loop_result api g (Z.to_nat (CommandRetries g))
                (CommandRetries g) (set_Usage s usage'))
      as (t & r & s' & E & Hus & Hd & _); [lia|].
    rewrite (bind_normal _ _ _ _ _ _ E).
    destruct (Z.eqb_spec r 0).
    + rewrite ERR_then_exit, prepend_pair. cbn [fst snd].
      rewrite count_deinitialize_app, Hd. split; [reflexivity | discriminate].
    + unfold ret. rewrite prepend_pair, app_nil_r. cbn [fst snd].
      split; [assumption|]. intros ? ? [= _ <-]. now rewrite Hus.
Qed.

(** The usage step always comes to an end. *)
Lemma usage_refresh_ends g (s : Session) :
  snd (usage_refresh api g s) <> OutOfFuel.
Proof.
  destruct (int_succ (m_Usage s)) as [usage'|] eqn:Hsucc.
  2: { now rewrite usage_refresh_overflow. }
  destruct (Z_lt_le_dec (CommandRefreshThreshold g) usage') as [Habove|Hbelow].
  2: { now rewrite (usage_refresh_below api g s usage'). }
  rewrite (usage_refresh_above api g s usage') by assumption.
  destruct (Z_lt_le_dec (CommandRetries g) 0) as [Hneg|Hnn].
  - rewrite (bind_normal _ _ _ _ _ _
               (refresh_loop_skip api _ g (CommandRetries g) _ (Z.lt_le_incl _ _ Hneg))).
    now destruct (Z.eqb_spec (CommandRetries g) 0).
  - destruct (refresh_loop_result api g (Z.to_nat (CommandRetries g))
                (CommandRetries g) (set_Usage s usage'))
      as (t & r & s' & E & _); [lia|].
    rewrite (bind_normal _ _ _ _ _ _ E).
    destruct (Z.eqb_spec r 0); [now rewrite ERR_then_exit | discriminate].
Qed.

(** [RunEx] is total: on every input the call returns, ends the process or
    runs into an undefined [int] operation; the iteration allowances of the
    model are never used up. *)
Lemma RunEx_ends g command args commandRetries (s : Session) :
  snd (RunEx api g command args commandRetries s) <> OutOfFuel.
Proof.
  pose proof (retry_phase_frame api command args commandRetries s)
    as (_ & _ & Hfuel & _).
  destruct (retry_phase api command args commandRetries s)
    as [t [u s1| c s1| |]] eqn:E; cbn [snd] in *.
  - destruct (unrecoverable api s1 u) eqn:Hun.
    + now rewrite (RunEx_unrecoverable g _ _ _ _ _ _ _ E Hun).
    + rewrite (RunEx_recoverable g _ _ _ _ _ _ _ E Hun), snd_prepend.
      pose proof (usage_refresh_ends g s1) as H. unfold bind, ret.
      destruct (usage_refresh api g s1) as [t2 [x s2| | |]];
        cbn [snd] in *; try discriminate. now elim H.
  - unfold RunEx, bind at 1. now rewrite E.
  - unfold RunEx, bind at 1. now rewrite E.
  - now elim Hfuel.
Qed.

(** C1, amended: once the retry loop is left, [RunEx] calls [Deinitialize]
    and ends the process with status 1 right there (p4_api.h:141-146)
    exactly when the transport is still dropped or the receiver's error is
    fatal.  Otherwise it goes on to the usage-counter step; it hands the
    receiver of the last attempt back, error state included, whenever the
    incremented counter does not exceed the refresh threshold, and it never
    hands back anything else. *)
Theorem fatal_check_decides g command args commandRetries (s : Session) t u s1 :
  retry_phase api command args commandRetries s = (t, Normal u s1) ->
  (unrecoverable api s1 u = true
   <-> RunEx api g command args commandRetries s
       = (t ++ [ELog LogERR [FStr "Exiting due to receiving errors even after retrying ";
                             FInt (CommandRetries g); FStr " times"];
                EDeinitialize; EExit 1],
          Exited 1 (snd (Deinitialize_body api s1))))
  /\ (unrecoverable api s1 u = false ->
      RunEx api g command args commandRetries s
      = prepend t ((usage_refresh api g ;; ret u) s1))
  /\ (unrecoverable api s1 u = false ->
      forall usage',
        int_succ (m_Usage s1) = Some usage' ->
        usage' <= CommandRefreshThreshold g ->
        RunEx api g command args commandRetries s
        = (t, Normal u (set_Usage s1 usage')))
  /\ (forall t' v s',
         RunEx api g command args commandRetries s = (t', Normal v s') ->
         v = u /\ unrecoverable api s1 u = false).
Proof.
  intros E.
  destruct (unrecoverable api s1 u) eqn:Hun.
  - rewrite (RunEx_unrecoverable g _ _ _ _ _ _ _ E Hun).
    split; [tauto | split; [discriminate | split; [discriminate|]]].
    intros ? ? ? [=].
  - rewrite (RunEx_recoverable g _ _ _ _ _ _ _ E Hun).
    destruct (usage_refresh_frame g s1) as (Hd' & _).
    split; [|split; [reflexivity | split]].
    + split; [discriminate|]. intros Heq. exfalso.
      apply (f_equal fst) in Heq. rewrite fst_prepend in Heq. cbn [fst] in Heq.
      apply app_inv_head in Heq.
      assert (Hc : count_deinitialize
                     (fst ((usage_refresh api g ;; ret u) s1)) = 0%nat).
      { unfold bind, ret.
        destruct (usage_refresh api g s1) as [t2 [x s2| | |]];
          cbn [fst] in *; rewrite ?app_nil_r; exact Hd'. }
      rewrite Heq in Hc. discriminate Hc.
    + intros _ usage' Hsucc Hle.
      rewrite (bind_normal _ _ _ _ _ _
                 (usage_refresh_below api g s1 usage' Hsucc Hle)).
      unfold ret. now rewrite !prepend_pair, !app_nil_r.
    + intros t' v s'. unfold bind.
      destruct (usage_refresh api g s1) as [t2 [x s2| | |]];
        cbn; intros [=]; now subst.
Qed.

(** C5: a call that returns has raised the usage counter by exactly one,
    whether or not a refresh was made on the way; the lifecycle calls leave
    the counter as it is; and the refresh threshold bears on a call only
    when its retry phase has ended normally with the transport connected
    and no fatal error, that is after the command has completed. *)
Theorem usage_counter_steps g command args commandRetries (s : Session) :
  (forall t u s',
      RunEx api g command args commandRetries s = (t, Normal u s') ->
      m_Usage s' = m_Usage s + 1 /\ m_Usage s < m_Usage s')
  /\ (forall s0 : Session,
         m_Usage (snd (Reinitialize_body api s0)) = m_Usage s0
         /\ m_Usage (snd (Deinitialize_body api s0)) = m_Usage s0
         /\ m_Usage (snd (Initialize_body api s0)) = m_Usage s0)
  /\ (forall g',
         CommandRetries g' = CommandRetries g ->
         RunEx api g' command args commandRetries s
         <> RunEx api g command args commandRetries s ->
         exists t u s1,
           retry_phase api command args commandRetries s = (t, Normal u s1)
           /\ unrecoverable api s1 u = false).
Proof.
  pose proof (retry_phase_frame api command args commandRetries s)
    as (_ & Hex & Hfuel & Hus).
  destruct (retry_phase api command args commandRetries s)
    as [t [u s1| c s1| |]] eqn:E; cbn [snd] in *.
  2: now elim (Hex c s1).
  3: now elim Hfuel.
  - specialize (Hus u s1 eq_refl).
    split; [|split].
    + intros t' v s' Hrun.
      destruct (unrecoverable api s1 u) eqn:Hun.
      * rewrite (RunEx_unrecoverable g _ _ _ _ _ _ _ E Hun) in Hrun.
        discriminate.
      * rewrite (RunEx_recoverable g _ _ _ _ _ _ _ E Hun) in Hrun.
        destruct (usage_refresh_frame g s1) as (_ & Hstep).
        unfold bind in Hrun.
        destruct (usage_refresh api g s1) as [t2 [x s2| | |]];
          cbn in Hrun; try discriminate.
        injection Hrun as _ _ <-.
        rewrite (Hstep x s2 eq_refl), Hus. lia.
    + intros s0. split; [apply Reinitialize_body_usage|].
      split; [apply Deinitialize_body_usage | apply Initialize_body_usage].
    + intros g' Hg Hneq. exists t, u, s1. split; [reflexivity|].
      destruct (unrecoverable api s1 u) eqn:Hun; [|reflexivity].
      elim Hneq.
      rewrite (RunEx_unrecoverable g _ _ _ _ _ _ _ E Hun),
        (RunEx_unrecoverable g' _ _ _ _ _ _ _ E Hun), Hg.
      reflexivity.
  - split; [|split].
    + intros t' v s'. unfold RunEx, bind at 1. rewrite E. discriminate.
    + intros s0. split; [apply Reinitialize_body_usage|].
      split; [apply Deinitialize_body_usage | apply Initialize_body_usage].
    + intros g' _ Hneq. elim Hneq. unfold RunEx, bind at 1.
      rewrite E. unfold bind at 1. rewrite E. reflexivity.
Qed.

End RunExClaims.

(** * The client view *)

Section ClientSpec.

Variable depotPath : string.

Local Abbreviation verdict_step :=
  (fun (verdict : bool) (rule : ViewRule) =>
     if view_matches (depot_pattern rule) depotPath
     then is_include rule else verdict).

Lemma matches_some_include_snoc rules x :
  view_matches (depot_pattern x) depotPath = false ->
  matches_some_include (rules ++ [x]) depotPath
  <-> matches_some_include rules depotPath.
Proof.
  intros Hx. unfold matches_some_include. split.
  - intros (rule & Hin & Hinc & Hm). exists rule. repeat split; try assumption.
    apply in_app_or in Hin. destruct Hin as [Hin|[<-|[]]]; [assumption|].
    congruence.
  - intros (rule & Hin & Hinc & Hm). exists rule. repeat split; try assumption.
    apply in_or_app. now left.
Qed.

Lemma last_match_not_exclude_snoc rules x :
  view_matches (depot_pattern x) depotPath = false ->
  last_match_not_exclude (rules ++ [x]) depotPath
  <-> last_match_not_exclude rules depotPath.
Proof.
  intros Hx. unfold last_match_not_exclude. split.
  - intros H before rule after -> Hm Hlater.
    apply (H before rule (after ++ [x])); [| assumption |].
    + now rewrite <- app_assoc.
    + intros later Hin. apply in_app_or in Hin.
      destruct Hin as [Hin|[<-|[]]]; [now apply Hlater | assumption].
  - intros H before rule after Heq Hm Hlater.
    destruct after as [|a after'] using rev_ind.
    + apply app_inj_tail in Heq. destruct Heq as [_ <-]. congruence.
    + clear IHafter'. rewrite app_comm_cons, app_assoc in Heq.
      apply app_inj_tail in Heq. destruct Heq as [-> <-].
      apply (H before rule after'); [reflexivity | assumption |].
      intros later Hin. apply Hlater, in_or_app. now left.
Qed.

Lemma last_match_not_exclude_last rules x :
  view_matches (depot_pattern x) depotPath = true ->
  last_match_not_exclude (rules ++ [x]) depotPath <-> is_include x = true.
Proof.
  intros Hx. unfold last_match_not_exclude. split.
  - intros H. specialize (H rules x [] eq_refl Hx).
    destruct (is_include x); [reflexivity|].
    elim H; [| reflexivity]. intros later [].
  - intros Hinc before rule after Heq Hm Hlater.
    destruct after as [|a after'] using rev_ind.
    + apply app_inj_tail in Heq. destruct Heq as [_ <-]. congruence.
    + clear IHafter'. rewrite app_comm_cons, app_assoc in Heq.
      apply app_inj_tail in Heq. destruct Heq as [_ <-].
      assert (view_matches (depot_pattern x) depotPath = false)
        by (apply Hlater, in_or_app; right; now left).
      congruence.
Qed.

Lemma verdict_last_match rules :
  fold_left verdict_step rules false = true
  <-> matches_some_include rules depotPath
      /\ last_match_not_exclude rules depotPath.
Proof.
  induction rules as [|x rules IH] using rev_ind.
  - cbn. split; [discriminate|]. now intros [(rule & [] & _) _].
  - rewrite fold_left_app. cbn [fold_left].
    destruct (view_matches (depot_pattern x) depotPath) eqn:Hx.
    + rewrite (last_match_not_exclude_last rules x Hx). split.
      * intros Hinc. split; [|assumption]. exists x.
        split; [apply in_or_app; right; now left | now split].
      * now intros [_ Hinc].
    + now rewrite (matches_some_include_snoc rules x Hx),
        (last_match_not_exclude_snoc rules x Hx).
Qed.

(** C8: [IsDepotPathUnderClientSpec] reads the ordered rule list with
    last-match-wins semantics: a depot path is under the client spec exactly
    when it matches an include rule and the last rule of the list that
    matches it is not an exclude rule.  For the rules
    [//depot/main/...] (include) followed by [//depot/main/secret/...]
    (exclude), a path under [//depot/main/secret/] is outside the view and
    every other path under [//depot/main/] is inside. *)
Theorem last_match_wins {ClientApi : Type} (s : P4API ClientApi) :
  (IsDepotPathUnderClientSpec s depotPath = true
   <-> matches_some_include (m_ClientMapping s) depotPath
       /\ last_match_not_exclude (m_ClientMapping s) depotPath)
  /\ (forall client1 client2,
         m_ClientMapping s
         = [mkViewRule "//depot/main/..." client1 true;
            mkViewRule "//depot/main/secret/..." client2 false] ->
         (String.prefix "//depot/main/secret/" depotPath = true ->
          IsDepotPathUnderClientSpec s depotPath = false)
         /\ (String.prefix "//depot/main/" depotPath = true ->
             String.prefix "//depot/main/secret/" depotPath = false ->
             IsDepotPathUnderClientSpec s depotPath = true)).
Proof.
  split; [apply verdict_last_match|].
  intros client1 client2 Hrules. unfold IsDepotPathUnderClientSpec.
  rewrite Hrules. cbn [fold_left depot_pattern is_include].
  change (view_matches "//depot/main/secret/..." depotPath)
    with (String.prefix "//depot/main/secret/" depotPath).
  change (view_matches "//depot/main/..." depotPath)
    with (String.prefix "//depot/main/" depotPath).
  split.
  - now intros ->.
  - now intros -> ->.
Qed.

End ClientSpec.

(** * The engine on concrete inputs *)

Section Runs.

Import Example.

Lemma always_dropped_spends_budget_witness :
  always_dropped offline
  /\ exists t s',
      RunEx offline (mkStatics 3 threshold) command arguments 3 (mkP4API tt [] 0)
      = (t, Exited 1 s')
      /\ actions t
         = [ESetArgv arguments; ERun command]
           ++ List.concat
                (repeat [ESleep 5; EReinitialize; ESetArgv arguments; ERun command]
                        (Z.to_nat 3))
           ++ [EDeinitialize; EExit 1]
      /\ count_reinitialize t = Z.to_nat 3.
Proof.
  assert (H : always_dropped offline) by (intros ? ? ?; reflexivity).
  split; [exact H|].
  apply (always_dropped_spends_budget offline (mkStatics 3 threshold) command
           arguments 3 (mkP4API tt [] 0) H).
  discriminate.
Defined.

Lemma negative_budget_never_exhausted_witness :
  always_failing erroring
  /\ forall k : nat,
      Z.of_nat k <= -1 - INT_MIN ->
      exists t,
        retry_phase_within erroring k command arguments (-1) (mkP4API tt [] 0)
        = (t, OutOfFuel)
        /\ count_reinitialize t = k.
Proof.
  assert (H : always_failing erroring) by (intros ? ? ?; reflexivity).
  split; [exact H|].
  refine (proj1 (negative_budget_never_exhausted erroring command arguments (-1)
                   (mkP4API tt [] 0) H _)).
  split; [discriminate | reflexivity].
Defined.

Lemma zero_budget_refresh_exits_witness :
  RunEx Script.ops (mkStatics 0 threshold) command arguments 0 (at_threshold healthy)
  = ([ESetArgv arguments; ERun command]
       ++ [ELog LogERR [FStr "Could not refresh the connection after ";
                        FInt 0; FStr " retries. Exiting."];
           EExit 1],
     Exited 1 (Script.session healthy 1001))
  /\ count_reinitialize
       (fst (RunEx Script.ops (mkStatics 0 threshold) command arguments 0
                   (at_threshold healthy)))
     = 0%nat.
Proof.
  apply (zero_budget_refresh_exits Script.ops (mkStatics 0 threshold) command
           arguments 0 (at_threshold healthy)
           [ESetArgv arguments; ERun command] NoError
           (at_threshold healthy) 1001);
    reflexivity.
Defined.

Lemma fatal_check_decides_witness :
  retry_phase erroring command arguments 1 (mkP4API tt [] 0)
  = ([ESetArgv arguments; ERun command]
       ++ retry_iteration_trace true command arguments,
     Normal RecoverableError (mkP4API tt [] 0))
  /\ unrecoverable erroring (mkP4API tt [] 0) RecoverableError = false
  /\ RunEx erroring (mkStatics 1 threshold) command arguments 1 (mkP4API tt [] 0)
     = ([ESetArgv arguments; ERun command]
          ++ retry_iteration_trace true command arguments,
        Normal RecoverableError (mkP4API tt [] 1)).
Proof.
  split; [reflexivity|]. split; [reflexivity|].
  destruct (fatal_check_decides erroring (R := Script.ErrorResult) (mkStatics 1 threshold) command
              arguments 1 (mkP4API tt [] 0)
              ([ESetArgv arguments; ERun command]
                 ++ retry_iteration_trace true command arguments)
              RecoverableError (mkP4API tt [] 0) eq_refl)
    as (_ & _ & H & _).
  apply (H eq_refl 1 eq_refl). discriminate.
Defined.

(** The reading of C1 as the spec words it fails when the command completes
    on a connected transport but the refresh that follows cannot reconnect:
    the receiver is not returned, the process ends. *)
Lemma recoverable_yet_not_returned :
  ~ returns_unless_unrecoverable
      Script.ops (mkStatics 2 threshold) command arguments 2
      (at_threshold no_reconnect).
Proof.
  intros H.
  destruct (H [ESetArgv arguments; ERun command] NoError
              (at_threshold no_reconnect) eq_refl) as [_ H2].
  destruct (H2 eq_refl) as (t' & s' & E).
  vm_compute in E. discriminate E.
Qed.

Lemma usage_counter_steps_witness :
  exists t,
    RunEx Script.ops (mkStatics 2 threshold) command arguments 2
          (at_threshold healthy)
    = (t, Normal NoError (Script.session healthy 1001))
    /\ count_reinitialize t = 1%nat
    /\ m_Usage (Script.session healthy 1001)
       = m_Usage (at_threshold healthy) + 1.
Proof.
  eexists. split; [reflexivity|]. split; [reflexivity|].
  exact (proj1 (proj1 (usage_counter_steps Script.ops (R := Script.ErrorResult) (mkStatics 2 threshold)
                         command arguments 2 (at_threshold healthy))
                      _ NoError (Script.session healthy 1001) eq_refl)).
Defined.

End Runs.

Lemma slept_app t1 t2 : slept (t1 ++ t2) = slept t1 + slept t2.
Proof.
  induction t1 as [|e t1 IH]; [reflexivity|].
  cbn. destruct e; rewrite ?IH; lia.
Qed.

Lemma slept_actions t : slept (actions t) = slept t.
Proof.
  induction t as [|e t IH]; [reflexivity|].
  unfold actions in *. destruct e; cbn; rewrite ?IH; reflexivity.
Qed.

Lemma slept_passes command args k :
  slept (List.concat (repeat (retry_pass command args) k)) = 5 * Z.of_nat k.
Proof.
  induction k as [|k IH]; [reflexivity|].
  cbn [repeat List.concat]. rewrite slept_app, IH. cbn [retry_pass slept]. lia.
Qed.

Lemma count_reinitialize_retry_passes command args k :
  count_reinitialize (List.concat (repeat (retry_pass command args) k)) = k.
Proof.
  induction k as [|k IH]; [reflexivity|].
  cbn [repeat List.concat]. rewrite count_reinitialize_app, IH. reflexivity.
Qed.

(** * More about [RunEx] *)

Section RunExMore.
Context {ClientApi T : Type}.
Context (api : ClientApiOps ClientApi T).
Context {R : Result T}.
Local Abbreviation Session := (P4API ClientApi).

Lemma retry_loop_bounded command args :
  forall (n fuel : nat) (u : T) (s : Session),
    (n <= fuel)%nat ->
    exists (k : nat) t u' s',
      retry_loop api fuel command args (Z.of_nat n) u s = (t, Normal u' s')
      /\ (k <= n)%nat
      /\ actions t = List.concat (repeat (retry_pass command args) k)
      /\ (signal_set api s' u' = false \/ k = n).
Proof.
  induction n as [|n IH]; intros fuel u s Hfuel.
  - exists 0%nat, [], u, s. rewrite retry_loop_spent. repeat split; auto.
  - destruct (signal_set api s u) eqn:Hsig.
    2: { exists 0%nat, [], u, s. rewrite retry_loop_clear by assumption.
         repeat split; auto; lia. }
    destruct fuel as [|fuel]; [lia|].
    rewrite retry_loop_iterate;
      [| assumption | lia | change INT_MIN with (-2147483648); lia].
    replace (Z.of_nat (S n) - 1) with (Z.of_nat n) by lia.
    destruct (IH fuel
                (dispatch_receiver api command args (snd (Reinitialize_body api s)))
                (dispatch_session api command args (snd (Reinitialize_body api s))))
      as (k & t & u' & s' & E & Hk & Ht & Hend); [lia|].
    rewrite E, prepend_pair. eexists (S k), _, u', s'.
    split; [reflexivity|]. split; [lia|]. split.
    + rewrite actions_app, actions_retry_iteration, Ht. reflexivity.
    + destruct Hend; [now left | right; lia].
Qed.

(** With a budget [N >= 0] the retry phase ends normally, within [N]
    retries. *)
Lemma retry_phase_cost command args N (s : Session) :
  0 <= N ->
  exists t u s1,
    retry_phase api command args N s = (t, Normal u s1)
    /\ slept t <= 5 * N
    /\ Z.of_nat (count_reinitialize t) <= N.
Proof.
  intros HN.
  destruct (retry_loop_bounded command args (Z.to_nat N) (retry_fuel N)
              (dispatch_receiver api command args s)
              (dispatch_session api command args s))
    as (k & t & u' & s' & E & Hk & Ht & _).
  { unfold retry_fuel. destruct (Z.leb_spec 0 N); lia. }
  rewrite Z2Nat.id in E by assumption.
  rewrite retry_phase_eq, E, prepend_pair.
  eexists _, u', s'. split; [reflexivity|].
  rewrite slept_app, count_reinitialize_app.
  rewrite <- (slept_actions t), <- (count_reinitialize_actions t), Ht,
    slept_passes, count_reinitialize_retry_passes.
  cbn [slept]. change (count_reinitialize [_; _]) with 0%nat. lia.
Qed.

(** X2: with a budget [N >= 0] the retry phase always hands over normally:
    after the first dispatch it makes [k <= N] passes, each a 5-second
    wait, [Reinitialize] and the redispatch, and it stops either with the
    dropped-or-error signal clear or with the whole budget spent. *)
Theorem retry_phase_bounded command args N (s : Session) :
  0 <= N ->
  exists (k : nat) t u s1,
    retry_phase api command args N s = (t, Normal u s1)
    /\ (k <= Z.to_nat N)%nat
    /\ actions t
       = [ESetArgv args; ERun command]
         ++ List.concat (repeat (retry_pass command args) k)
    /\ (signal_set api s1 u = false \/ k = Z.to_nat N).
Proof.
  intros HN.
  destruct (retry_loop_bounded command args (Z.to_nat N) (retry_fuel N)
              (dispatch_receiver api command args s)
              (dispatch_session api command args s))
    as (k & t & u' & s' & E & Hk & Ht & Hend).
  { unfold retry_fuel. destruct (Z.leb_spec 0 N); lia. }
  rewrite Z2Nat.id in E by assumption.
  rewrite retry_phase_eq, E, prepend_pair.
  eexists k, _, u', s'. split; [reflexivity|]. split; [assumption|].
  split; [|assumption].
  now rewrite actions_app, Ht.
Qed.

(** X1: when the first dispatch leaves the transport connected and the
    receiver free of error, and the incremented usage counter does not
    exceed the threshold, [RunEx] returns that receiver at once, whatever
    the budget (zero and negative included): the command is run exactly
    once, there is no wait, no [Reinitialize], no log line, and the usage
    counter is one up. *)
Theorem clean_dispatch_returns_at_once g command args commandRetries
        (s : Session) usage' :
  signal_set api (dispatch_session api command args s)
             (dispatch_receiver api command args s) = false ->
  int_succ (m_Usage s) = Some usage' ->
  usage' <= CommandRefreshThreshold g ->
  RunEx api g command args commandRetries s
  = ([ESetArgv args; ERun command],
     Normal (dispatch_receiver api command args s)
            (set_Usage (dispatch_session api command args s) usage')).
Proof.
  intros Hclear Hsucc Hle.
  assert (E : retry_phase api command args commandRetries s
              = ([ESetArgv args; ERun command],
                 Normal (dispatch_receiver api command args s)
                        (dispatch_session api command args s))).
  { rewrite retry_phase_eq, retry_loop_clear by assumption. reflexivity. }
  rewrite (RunEx_recoverable api g _ _ _ _ _ _ _ E)
    by now apply signal_clear_recoverable.
  rewrite (bind_normal _ _ _ _ _ _
             (usage_refresh_below api g (dispatch_session api command args s)
                                  usage' Hsucc Hle)).
  reflexivity.
Qed.

Lemma retry_loop_always_failing command args :
  always_failing api ->
  forall (n fuel : nat) (u : T) (s : Session),
    (n <= fuel)%nat -> signal_set api s u = true ->
    exists t u' s',
      retry_loop api fuel command args (Z.of_nat n) u s = (t, Normal u' s')
      /\ signal_set api s' u' = true
      /\ actions t = List.concat (repeat (retry_pass command args) n).
Proof.
  intros Hfail. induction n as [|n IH]; intros fuel u s Hfuel Hsig.
  - exists [], u, s. rewrite retry_loop_spent. now repeat split.
  - destruct fuel as [|fuel]; [lia|].
    rewrite retry_loop_iterate;
      [| assumption | lia | change INT_MIN with (-2147483648); lia].
    replace (Z.of_nat (S n) - 1) with (Z.of_nat n) by lia.
    destruct (IH fuel
                (dispatch_receiver api command args (snd (Reinitialize_body api s)))
                (dispatch_session api command args (snd (Reinitialize_body api s))))
      as (t & u' & s' & E & Hs' & Ht); [lia | apply Hfail |].
    rewrite E, prepend_pair. eexists _, u', s'. split; [reflexivity|].
    split; [assumption|].
    rewrite actions_app, actions_retry_iteration, Ht. reflexivity.
Qed.

(** X3: when every dispatch leaves the dropped-or-error signal set, a budget
    [N >= 0] is spent in full: [N] passes, [N] calls of [Reinitialize],
    and the signal is still set when the loop is left.  The call then ends
    the process (after [Deinitialize]) if the transport is dropped or the
    error fatal; otherwise the receiver it returns, when the usage counter
    stays within the threshold, has its error set. *)
Theorem exhausted_budget_outcome g command args N (s : Session) :
  always_failing api -> 0 <= N ->
  exists t u s1,
    retry_phase api command args N s = (t, Normal u s1)
    /\ signal_set api s1 u = true
    /\ actions t
       = [ESetArgv args; ERun command]
         ++ List.concat (repeat (retry_pass command args) (Z.to_nat N))
    /\ count_reinitialize t = Z.to_nat N
    /\ (unrecoverable api s1 u = true ->
        RunEx api g command args N s
        = (t ++ [ELog LogERR [FStr "Exiting due to receiving errors even after retrying ";
                              FInt (CommandRetries g); FStr " times"];
                 EDeinitialize; EExit 1],
           Exited 1 (snd (Deinitialize_body api s1))))
    /\ (unrecoverable api s1 u = false ->
        IsError (GetError u) = true
        /\ forall usage',
            int_succ (m_Usage s1) = Some usage' ->
            usage' <= CommandRefreshThreshold g ->
            RunEx api g command args N s = (t, Normal u (set_Usage s1 usage'))).
Proof.
  intros Hfail HN.
  destruct (retry_loop_always_failing command args Hfail (Z.to_nat N)
              (retry_fuel N) (dispatch_receiver api command args s)
              (dispatch_session api command args s))
    as (t & u' & s' & E & Hs' & Ht).
  { unfold retry_fuel. destruct (Z.leb_spec 0 N); lia. }
  { apply Hfail. }
  rewrite Z2Nat.id in E by assumption.
  assert (Ephase : retry_phase api command args N s
                   = ([ESetArgv args; ERun command] ++ t, Normal u' s')).
  { now rewrite retry_phase_eq, E. }
  eexists _, u', s'. split; [exact Ephase|]. split; [assumption|].
  assert (Ha : actions ([ESetArgv args; ERun command] ++ t)
               = [ESetArgv args; ERun command]
                   ++ List.concat (repeat (retry_pass command args) (Z.to_nat N))).
  { now rewrite actions_app, Ht. }
  split; [exact Ha|]. split.
  { rewrite <- count_reinitialize_actions, Ha, count_reinitialize_app,
      count_reinitialize_retry_passes. reflexivity. }
  split.
  - intros Hun. exact (RunEx_unrecoverable api g _ _ _ _ _ _ _ Ephase Hun).
  - intros Hun. split.
    + unfold signal_set, unrecoverable in *.
      destruct (Dropped api (m_ClientAPI s')); [discriminate | exact Hs'].
    + intros usage' Hsucc Hle.
      rewrite (RunEx_recoverable api g _ _ _ _ _ _ _ Ephase Hun).
      rewrite (bind_normal _ _ _ _ _ _
                 (usage_refresh_below api g s' usage' Hsucc Hle)).
      unfold ret. now rewrite !prepend_pair, !app_nil_r.
Qed.

(** X4: with a negative [CommandRetries], a call that passes the check after
    the loop always returns its receiver: the loop at p4_api.h:152 is not
    entered and the test at p4_api.h:166 fails, so even above the threshold
    there is neither a refresh nor an exit. *)
Theorem negative_refresh_budget_disables_refresh
        g command args commandRetries (s : Session) t u s1 usage' :
  retry_phase api command args commandRetries s = (t, Normal u s1) ->
  unrecoverable api s1 u = false ->
  int_succ (m_Usage s1) = Some usage' ->
  CommandRetries g < 0 ->
  RunEx api g command args commandRetries s
  = (t, Normal u (set_Usage s1 usage')).
Proof.
  intros E Hrec Hsucc Hneg.
  rewrite (RunEx_recoverable api g _ _ _ _ _ _ _ E Hrec).
  destruct (Z_lt_le_dec (CommandRefreshThreshold g) usage') as [Habove|Hbelow].
  - rewrite (bind_eq _ _ _ _ _ (usage_refresh_above api g s1 usage' Hsucc Habove)).
    rewrite bind_bind.
    rewrite (bind_normal _ _ _ _ _ _
               (refresh_loop_skip api _ g (CommandRetries g) _
                                  (Z.lt_le_incl _ _ Hneg))).
    destruct (Z.eqb_spec (CommandRetries g) 0); [lia|].
    rewrite bind_ret. unfold ret. now rewrite !prepend_pair, !app_nil_r.
  - rewrite (bind_normal _ _ _ _ _ _
               (usage_refresh_below api g s1 usage' Hsucc Hbelow)).
    unfold ret. now rewrite !prepend_pair, !app_nil_r.
Qed.

Lemma refresh_loop_first_success g :
  forall (k fuel : nat) n (s : Session),
    (k < fuel)%nat -> Z.of_nat k < n ->
    reinitialize_fails api k s = true ->
    fst (Reinitialize_body api (reinitialized api k s)) = true ->
    exists t,
      refresh_loop api fuel g n s
      = (t, Normal (n - Z.of_nat k)
                   (snd (Reinitialize_body api (reinitialized api k s))))
      /\ actions t
         = List.concat (repeat [EReinitialize; ESleep 5] k) ++ [EReinitialize].
Proof.
  induction k as [|k IH]; intros fuel n s Hfuel Hn Hfails Hok;
    (destruct fuel as [|fuel]; [lia|]).
  - cbn [reinitialized] in *. rewrite refresh_loop_success by (assumption || lia).
    replace (n - Z.of_nat 0) with n by (cbn; lia).
    eexists. split; reflexivity.
  - cbn [reinitialize_fails reinitialized] in *.
    apply andb_prop in Hfails. destruct Hfails as [Hfirst Hrest].
    apply negb_true_iff in Hfirst.
    rewrite refresh_loop_failure by (assumption || lia).
    destruct (IH fuel (n - 1) (snd (Reinitialize_body api s)))
      as (t & E & Ht); [lia | lia | assumption | assumption |].
    rewrite E, prepend_pair.
    replace (n - 1 - Z.of_nat k) with (n - Z.of_nat (S k)) by lia.
    eexists. split; [reflexivity|].
    rewrite actions_app, Ht. reflexivity.
Qed.

(** X5: the refresh stops at the first [Reinitialize] that succeeds.  If the
    first [k < CommandRetries] attempts fail and the next one succeeds, the
    refresh consists of [k] failed attempts, each followed by a 5-second
    wait, and one last attempt without a wait; the command is not run
    again and the receiver obtained before the refresh is returned. *)
Theorem refresh_stops_at_first_success
        g command args commandRetries (s : Session) t u s1 usage' (k : nat) :
  retry_phase api command args commandRetries s = (t, Normal u s1) ->
  unrecoverable api s1 u = false ->
  int_succ (m_Usage s1) = Some usage' ->
  CommandRefreshThreshold g < usage' ->
  Z.of_nat k < CommandRetries g ->
  reinitialize_fails api k (set_Usage s1 usage') = true ->
  fst (Reinitialize_body api (reinitialized api k (set_Usage s1 usage'))) = true ->
  exists t2,
    RunEx api g command args commandRetries s
    = (t ++ t2,
       Normal u (snd (Reinitialize_body api
                        (reinitialized api k (set_Usage s1 usage')))))
    /\ actions t2
       = List.concat (repeat [EReinitialize; ESleep 5] k) ++ [EReinitialize].
Proof.
  intros E Hrec Hsucc Habove Hk Hfails Hok.
  rewrite (RunEx_recoverable api g _ _ _ _ _ _ _ E Hrec).
  rewrite (bind_eq _ _ _ _ _ (usage_refresh_above api g s1 usage' Hsucc Habove)).
  rewrite bind_bind.
  destruct (refresh_loop_first_success g k (Z.to_nat (CommandRetries g))
              (CommandRetries g) (set_Usage s1 usage'))
    as (t2 & Eloop & Ht2); [lia | assumption | assumption | assumption |].
  rewrite (bind_normal _ _ _ _ _ _ Eloop).
  destruct (Z.eqb_spec (CommandRetries g - Z.of_nat k) 0); [lia|].
  rewrite bind_ret. unfold ret. rewrite !prepend_pair, app_nil_r.
  exists t2. now split.
Qed.

(** X6: when all [CommandRetries >= 0] refresh attempts fail, each of them,
    the last included, is followed by a 5-second wait; the process then
    ends with status 1, on the session the last attempt left. *)
Theorem refresh_exhausted_exit
        g command args commandRetries (s : Session) t u s1 usage' :
  retry_phase api command args commandRetries s = (t, Normal u s1) ->
  unrecoverable api s1 u = false ->
  int_succ (m_Usage s1) = Some usage' ->
  CommandRefreshThreshold g < usage' ->
  0 <= CommandRetries g ->
  reinitialize_fails api (Z.to_nat (CommandRetries g)) (set_Usage s1 usage') = true ->
  exists t2,
    RunEx api g command args commandRetries s
    = (t ++ t2,
       Exited 1 (reinitialized api (Z.to_nat (CommandRetries g))
                               (set_Usage s1 usage')))
    /\ actions t2
       = List.concat (repeat [EReinitialize; ESleep 5]
                             (Z.to_nat (CommandRetries g)))
         ++ [EExit 1].
Proof.
  intros E Hrec Hsucc Habove Hnn Hfails.
  rewrite (RunEx_recoverable api g _ _ _ _ _ _ _ E Hrec).
  rewrite (bind_eq _ _ _ _ _ (usage_refresh_above api g s1 usage' Hsucc Habove)).
  rewrite bind_bind.
  destruct (refresh_loop_result api g (Z.to_nat (CommandRetries g))
              (CommandRetries g) (set_Usage s1 usage'))
    as (t2 & r & s' & Eloop & _ & Hd & Hcases); [lia|].
  destruct Hcases as [(-> & _ & -> & _ & Ha)|(_ & Hf & _)]; [|congruence].
  rewrite (bind_normal _ _ _ _ _ _ Eloop). cbn [Z.eqb].
  rewrite (bind_exited _ _ _ _ _ _ (ERR_then_exit _ _ _)), !prepend_pair.
  eexists. split; [reflexivity|].
  rewrite actions_app, Ha. reflexivity.
Qed.

(** Events of the loops: well-formed for the call, and neither an exit nor
    a [Deinitialize]. *)
Local Abbreviation loop_event command args :=
  (fun e : event => event_of_call command args e /\ quiet e).

Lemma retry_iteration_loop_events ok command args :
  Forall (loop_event command args) (retry_iteration_trace ok command args).
Proof. destruct ok; repeat constructor. Qed.

Lemma retry_loop_events fuel command args :
  forall retries (u : T) (s : Session),
    Forall (loop_event command args)
           (fst (retry_loop api fuel command args retries u s)).
Proof.
  induction fuel as [|fuel IH]; intros retries u s.
  - destruct (retry_loop_head api 0 command args retries u s)
      as [_ E|_ _ E|_ _ _ E|f _ _ _ Hf E|f _ _ _ Hf E];
      try discriminate Hf; rewrite E; constructor.
  - destruct (retry_loop_head api (S fuel) command args retries u s)
      as [_ E|_ _ E|_ _ Hf E|f _ _ _ Hf E|f _ _ _ Hf E];
      try discriminate Hf; rewrite E; cbn [fst].
    + constructor.
    + constructor.
    + apply retry_iteration_loop_events.
    + injection Hf as <-. rewrite fst_prepend. apply Forall_app. split.
      * apply retry_iteration_loop_events.
      * apply IH.
Qed.

Lemma retry_phase_events command args commandRetries (s : Session) :
  Forall (loop_event command args)
         (fst (retry_phase api command args commandRetries s)).
Proof.
  rewrite retry_phase_eq, fst_prepend. apply Forall_app. split.
  - repeat constructor.
  - apply retry_loop_events.
Qed.

Lemma refresh_loop_no_fuel g refreshRetries (s : Session) :
  0 < refreshRetries ->
  refresh_loop api 0 g refreshRetries s = ([], OutOfFuel).
Proof.
  intros H. cbn [refresh_loop].
  now destruct (Z.gtb_spec refreshRetries 0); [|lia].
Qed.

(** The refresh loop, on any allowance: its events, its cost and the fact
    that it does not end the process itself. *)
Lemma refresh_loop_cost g command args fuel :
  forall refreshRetries (s : Session),
    Forall (loop_event command args)
           (fst (refresh_loop api fuel g refreshRetries s))
    /\ slept (fst (refresh_loop api fuel g refreshRetries s))
       <= 5 * Z.max 0 refreshRetries
    /\ Z.of_nat (count_reinitialize (fst (refresh_loop api fuel g refreshRetries s)))
       <= Z.max 0 refreshRetries
    /\ (forall c s', snd (refresh_loop api fuel g refreshRetries s)
                     <> Exited c s').
Proof.
  assert (Hnil : forall n o,
             (forall c s', o <> @Exited Session Z c s') ->
             Forall (loop_event command args) (fst (@nil event, o))
             /\ slept (fst (@nil event, o)) <= 5 * Z.max 0 n
             /\ Z.of_nat (count_reinitialize (fst (@nil event, o))) <= Z.max 0 n
             /\ (forall c s', snd (@nil event, o) <> Exited c s')).
  { intros n o Ho. cbn [fst snd slept].
    split; [constructor|]. split; [lia|]. split; [cbn; lia | exact Ho]. }
  induction fuel as [|fuel IH]; intros n s.
  - destruct (Z_lt_le_dec 0 n) as [Hpos|Hle].
    + rewrite refresh_loop_no_fuel by assumption. apply Hnil. discriminate.
    + rewrite refresh_loop_skip by assumption. apply Hnil. discriminate.
  - destruct (Z_lt_le_dec 0 n) as [Hpos|Hle].
    2: { rewrite refresh_loop_skip by assumption. apply Hnil. discriminate. }
    destruct (fst (Reinitialize_body api s)) eqn:Hok.
    + rewrite refresh_loop_success by assumption. cbn [fst snd].
      split; [repeat constructor|].
      split; [cbn [slept]; lia|]. split; [cbn; lia | discriminate].
    + rewrite refresh_loop_failure by assumption.
      destruct (IH (n - 1) (snd (Reinitialize_body api s)))
        as (Hev & Hsl & Hct & Hex).
      rewrite fst_prepend, snd_prepend, slept_app, count_reinitialize_app.
      split; [apply Forall_app; split; [repeat constructor | exact Hev]|].
      cbn [slept]. split; [lia|]. split; [|exact Hex].
      change (count_reinitialize _) with 1%nat at 1. lia.
Qed.

Lemma fst_bind_ret {S A B} (m : M S A) (b : B) (s : S) :
  fst (bind m (fun _ => ret b) s) = fst (m s).
Proof.
  unfold bind, ret. destruct (m s) as [t [a s'| | |]]; cbn;
    now rewrite ?app_nil_r.
Qed.

(** The usage step: a quiet prefix within the cost of the refresh budget,
    closed by the exit message when the refresh was exhausted. *)
Lemma usage_refresh_shape g command args (s : Session) :
  exists q tail,
    fst (usage_refresh api g s) = q ++ tail
    /\ Forall (loop_event command args) q
    /\ slept q <= 5 * Z.max 0 (CommandRetries g)
    /\ Z.of_nat (count_reinitialize q) <= Z.max 0 (CommandRetries g)
    /\ ((tail = []
         /\ forall c s', snd (usage_refresh api g s) <> Exited c s')
        \/ (tail = [ELog LogERR [FStr "Could not refresh the connection after ";
                                 FInt (CommandRetries g); FStr " retries. Exiting."];
                    EExit 1]
            /\ exists s', snd (usage_refresh api g s) = Exited 1 s')).
Proof.
  assert (Hquiet : forall q (o : outcome Session unit),
             usage_refresh api g s = (q, o) ->
             Forall (loop_event command args) q ->
             slept q <= 5 * Z.max 0 (CommandRetries g) ->
             Z.of_nat (count_reinitialize q) <= Z.max 0 (CommandRetries g) ->
             (forall c s', o <> Exited c s') ->
             exists q tail,
               fst (usage_refresh api g s) = q ++ tail
               /\ Forall (loop_event command args) q
               /\ slept q <= 5 * Z.max 0 (CommandRetries g)
               /\ Z.of_nat (count_reinitialize q) <= Z.max 0 (CommandRetries g)
               /\ ((tail = []
                    /\ forall c s', snd (usage_refresh api g s) <> Exited c s')
                   \/ (tail = [ELog LogERR [FStr "Could not refresh the connection after ";
                                            FInt (CommandRetries g);
                                            FStr " retries. Exiting."];
                               EExit 1]
                       /\ exists s', snd (usage_refresh api g s) = Exited 1 s'))).
  { intros q o -> Hev Hsl Hct Ho. exists q, []. rewrite app_nil_r.
    split; [reflexivity|]. split; [assumption|]. split; [assumption|].
    split; [assumption|]. left. split; [reflexivity | exact Ho]. }
  assert (Hempty : forall o : outcome Session unit,
             usage_refresh api g s = ([], o) ->
             (forall c s', o <> Exited c s') ->
             exists q tail,
               fst (usage_refresh api g s) = q ++ tail
               /\ Forall (loop_event command args) q
               /\ slept q <= 5 * Z.max 0 (CommandRetries g)
               /\ Z.of_nat (count_reinitialize q) <= Z.max 0 (CommandRetries g)
               /\ ((tail = []
                    /\ forall c s', snd (usage_refresh api g s) <> Exited c s')
                   \/ (tail = [ELog LogERR [FStr "Could not refresh the connection after ";
                                            FInt (CommandRetries g);
                                            FStr " retries. Exiting."];
                               EExit 1]
                       /\ exists s', snd (usage_refresh api g s) = Exited 1 s'))).
  { intros o E Ho. apply (Hquiet [] o E); [constructor | cbn [slept]; lia | cbn; lia | exact Ho]. }
  destruct (int_succ (m_Usage s)) as [usage'|] eqn:Hsucc.
  2: { apply (Hempty _ (usage_refresh_overflow api g s Hsucc)). discriminate. }
  destruct (Z_lt_le_dec (CommandRefreshThreshold g) usage') as [Habove|Hbelow].
  2: { apply (Hempty _ (usage_refresh_below api g s usage' Hsucc Hbelow)).
       discriminate. }
  destruct (refresh_loop_cost g command args (Z.to_nat (CommandRetries g))
              (CommandRetries g) (set_Usage s usage'))
    as (Hev & Hsl & Hct & Hex).
  pose proof (usage_refresh_above api g s usage' Hsucc Habove) as E.
  unfold bind at 1 in E.
  destruct (refresh_loop api (Z.to_nat (CommandRetries g)) g (CommandRetries g)
                         (set_Usage s usage'))
    as [q [r s'| c s'| |]]; cbn [fst snd] in *.
  - destruct (Z.eqb_spec r 0).
    + rewrite ERR_then_exit in E. rewrite E. cbn [fst snd].
      eexists q, _. split; [reflexivity|].
      split; [assumption|]. split; [assumption|]. split; [assumption|].
      right. split; [reflexivity|]. now eexists.
    + unfold ret in E. rewrite app_nil_r in E.
      apply (Hquiet _ _ E); try assumption. discriminate.
  - now elim (Hex c s').
  - apply (Hquiet _ _ E); try assumption. discriminate.
  - apply (Hquiet _ _ E); try assumption. discriminate.
Qed.

Lemma RunEx_cases g command args commandRetries (s : Session) :
  (exists t,
      retry_phase api command args commandRetries s = (t, Undefined)
      /\ RunEx api g command args commandRetries s = (t, Undefined))
  \/ (exists t u s1,
         retry_phase api command args commandRetries s = (t, Normal u s1)
         /\ unrecoverable api s1 u = true
         /\ RunEx api g command args commandRetries s
            = (t ++ [ELog LogERR [FStr "Exiting due to receiving errors even after retrying ";
                                  FInt (CommandRetries g); FStr " times"];
                     EDeinitialize; EExit 1],
               Exited 1 (snd (Deinitialize_body api s1))))
  \/ (exists t u s1,
         retry_phase api command args commandRetries s = (t, Normal u s1)
         /\ unrecoverable api s1 u = false
         /\ fst (RunEx api g command args commandRetries s)
            = t ++ fst (usage_refresh api g s1)
         /\ snd (RunEx api g command args commandRetries s)
            = match snd (usage_refresh api g s1) with
              | Normal _ s' => Normal u s'
              | Exited c s' => Exited c s'
              | Undefined => Undefined
              | OutOfFuel => OutOfFuel
              end).
Proof.
  pose proof (retry_phase_frame api command args commandRetries s)
    as (_ & Hex & Hfuel & _).
  destruct (retry_phase api command args commandRetries s)
    as [t [u s1| c s1| |]] eqn:E; cbn [snd] in *.
  - destruct (unrecoverable api s1 u) eqn:Hun.
    + right. left. exists t, u, s1. split; [reflexivity|]. split; [assumption|].
      exact (RunEx_unrecoverable api g _ _ _ _ _ _ _ E Hun).
    + right. right. exists t, u, s1. split; [reflexivity|]. split; [assumption|].
      rewrite (RunEx_recoverable api g _ _ _ _ _ _ _ E Hun).
      rewrite fst_prepend, snd_prepend, fst_bind_ret. split; [reflexivity|].
      unfold bind, ret. now destruct (usage_refresh api g s1) as [t2 [x s2| | |]].
  - now elim (Hex c s1).
  - left. exists t. split; [reflexivity|]. unfold RunEx, bind at 1. now rewrite E.
  - now elim Hfuel.
Qed.

(** X9: on every path, whatever the outcome, [RunEx] dispatches nothing but
    the command it was given with the arguments it was given, waits only
    in steps of 5 seconds and ends the process with no status but 1. *)
Theorem RunEx_trace_well_formed g command args commandRetries (s : Session) :
  Forall (event_of_call command args)
         (fst (RunEx api g command args commandRetries s)).
Proof.
  pose proof (retry_phase_events command args commandRetries s) as Hev.
  assert (Hweak : forall t, Forall (loop_event command args) t ->
                            Forall (event_of_call command args) t).
  { intros t H. eapply Forall_impl; [|exact H]. now intros e [He _]. }
  destruct (RunEx_cases g command args commandRetries s)
    as [(t & E & ->)|[(t & u & s1 & E & _ & ->)|(t & u & s1 & E & _ & -> & _)]];
    rewrite E in Hev; cbn [fst] in *.
  - now apply Hweak.
  - apply Forall_app. split; [now apply Hweak | repeat constructor].
  - apply Forall_app. split; [now apply Hweak|].
    destruct (usage_refresh_shape g command args s1)
      as (q & tail & -> & Hq & _ & _ & [[-> _]|[-> _]]).
    + rewrite app_nil_r. now apply Hweak.
    + apply Forall_app. split; [now apply Hweak | repeat constructor].
Qed.

Lemma loop_events_quiet command args t :
  Forall (loop_event command args) t ->
  ~ In EDeinitialize t /\ forall c, ~ In (EExit c) t.
Proof.
  intros H. rewrite Forall_forall in H. split.
  - intros Hin. destruct (H _ Hin) as [_ [_ Hd]]. discriminate Hd.
  - intros c Hin. destruct (H _ Hin) as [_ [He _]]. discriminate He.
Qed.

(** X8: a call that returns has neither called [Deinitialize] nor ended the
    process; a call that ends the process does so with status 1, and the
    exit is the last thing it does. *)
Theorem RunEx_returns_or_exits_with_1 g command args commandRetries (s : Session) :
  (forall t u s',
      RunEx api g command args commandRetries s = (t, Normal u s') ->
      ~ In EDeinitialize t /\ forall c, ~ In (EExit c) t)
  /\ (forall t c s',
         RunEx api g command args commandRetries s = (t, Exited c s') ->
         c = 1 /\ exists t0, t = t0 ++ [EExit 1] /\ forall c', ~ In (EExit c') t0).
Proof.
  pose proof (retry_phase_events command args commandRetries s) as Hev.
  destruct (RunEx_cases g command args commandRetries s)
    as [(t & E & Hrun)|[(t & u & s1 & E & _ & Hrun)|(t & u & s1 & E & _ & Hfst & Hsnd)]];
    rewrite E in Hev; cbn [fst] in Hev.
  - rewrite Hrun. split; intros ? ? ? [=].
  - rewrite Hrun. split; [intros ? ? ? [=]|].
    intros t' c s' Heq. injection Heq as <- <- _. split; [reflexivity|].
    eexists (t ++ [_; EDeinitialize]). rewrite <- app_assoc. split; [reflexivity|].
    intros c' Hin. apply in_app_or in Hin. destruct Hin as [Hin|Hin].
    + now apply (proj2 (loop_events_quiet command args t Hev) c').
    + cbn in Hin. intuition discriminate.
  - destruct (usage_refresh_shape g command args s1)
      as (q & tail & Hq & Hqev & _ & _ & Htail).
    rewrite Hq in Hfst.
    assert (Hall : Forall (loop_event command args) (t ++ q))
      by (apply Forall_app; now split).
    destruct (RunEx api g command args commandRetries s) as [t' o] eqn:Hrun.
    cbn [fst snd] in *. subst t'.
    destruct Htail as [[-> Hno]|[-> [s' Hex]]].
    + rewrite app_nil_r. split.
      * intros t' v s' Heq. injection Heq as <- _. now apply loop_events_quiet with command args.
      * intros t' c s' Heq. injection Heq as _ ->. exfalso.
        destruct (snd (usage_refresh api g s1)) as [x s2|c2 s2| |];
          try discriminate Hsnd. now elim (Hno c2 s2).
    + rewrite Hex in Hsnd. subst o. split; [intros ? ? ? [=]|].
      intros t' c s'' Heq. injection Heq as <- <- _. split; [reflexivity|].
      eexists ((t ++ q) ++ [_]). rewrite <- !app_assoc. split; [reflexivity|].
      intros c' Hin. rewrite app_assoc in Hin.
      apply in_app_or in Hin. destruct Hin as [Hin|Hin].
      * now apply (proj2 (loop_events_quiet command args _ Hall) c').
      * cbn in Hin. intuition discriminate.
Qed.

(** X7: with a budget [N >= 0], a call sleeps at most
    [5 * (N + max 0 CommandRetries)] seconds in all and calls
    [Reinitialize] at most [N + max 0 CommandRetries] times. *)
Theorem RunEx_waits_are_bounded g command args N (s : Session) :
  0 <= N ->
  slept (fst (RunEx api g command args N s))
  <= 5 * (N + Z.max 0 (CommandRetries g))
  /\ Z.of_nat (count_reinitialize (fst (RunEx api g command args N s)))
     <= N + Z.max 0 (CommandRetries g).
Proof.
  intros HN.
  destruct (retry_phase_cost command args N s HN)
    as (t & u & s1 & E & Hsl & Hct).
  destruct (RunEx_cases g command args N s)
    as [(t' & E' & _)|[(t' & u' & s1' & E' & _ & ->)|(t' & u' & s1' & E' & _ & -> & _)]];
    rewrite E in E'; try discriminate E'; injection E' as <- <- <-.
  - cbn [fst]. rewrite slept_app, count_reinitialize_app.
    cbn [slept]. change (count_reinitialize [_; _; _]) with 0%nat. lia.
  - destruct (usage_refresh_shape g command args s1)
      as (q & tail & -> & _ & Hqs & Hqc & [[-> _]|[-> _]]);
      rewrite !slept_app, !count_reinitialize_app; cbn [slept];
      change (count_reinitialize []) with 0%nat;
      try change (count_reinitialize [_; _]) with 0%nat; lia.
Qed.

Lemma usage_refresh_defined g (s : Session) :
  m_Usage s < INT_MAX ->
  (exists s', snd (usage_refresh api g s) = Normal tt s')
  \/ (exists s', snd (usage_refresh api g s) = Exited 1 s').
Proof.
  intros Hmax.
  assert (Hsucc : int_succ (m_Usage s) = Some (m_Usage s + 1)).
  { unfold int_succ. now destruct (Z.ltb_spec (m_Usage s) INT_MAX); [|lia]. }
  destruct (Z_lt_le_dec (CommandRefreshThreshold g) (m_Usage s + 1)) as [Habove|Hbelow].
  2: { rewrite (usage_refresh_below api g s _ Hsucc Hbelow). left. now eexists. }
  rewrite (usage_refresh_above api g s _ Hsucc Habove).
  destruct (Z_lt_le_dec (CommandRetries g) 0) as [Hneg|Hnn].
  - rewrite (bind_normal _ _ _ _ _ _
               (refresh_loop_skip api _ g (CommandRetries g) _ (Z.lt_le_incl _ _ Hneg))).
    destruct (Z.eqb_spec (CommandRetries g) 0); [lia|]. left. now eexists.
  - destruct (refresh_loop_result api g (Z.to_nat (CommandRetries g))
                (CommandRetries g) (set_Usage s (m_Usage s + 1)))
      as (t & r & s' & E & _); [lia|].
    rewrite (bind_normal _ _ _ _ _ _ E).
    destruct (Z.eqb_spec r 0).
    + rewrite ERR_then_exit. right. now eexists.
    + left. now eexists.
Qed.

(** X10: with a budget [N >= 0] no [int] of the retry loop overflows, and if
    the usage counter is below [INT_MAX] when it is incremented the call is
    defined throughout: it returns the receiver of the last attempt or
    ends the process with status 1. *)
Theorem RunEx_defined g command args N (s : Session) :
  0 <= N ->
  exists t u s1,
    retry_phase api command args N s = (t, Normal u s1)
    /\ (m_Usage s1 < INT_MAX ->
        (exists s', snd (RunEx api g command args N s) = Normal u s')
        \/ (exists s', snd (RunEx api g command args N s) = Exited 1 s')).
Proof.
  intros HN.
  destruct (retry_phase_cost command args N s HN)
    as (t & u & s1 & E & _).
  exists t, u, s1. split; [exact E|]. intros Hmax.
  destruct (RunEx_cases g command args N s)
    as [(t' & E' & _)|[(t' & u' & s1' & E' & _ & ->)|(t' & u' & s1' & E' & _ & _ & ->)]];
    rewrite E in E'; try discriminate E'; injection E' as <- <- <-.
  - right. now eexists.
  - destruct (usage_refresh_defined g s1 Hmax) as [[s' ->]|[s' ->]];
      [left | right]; now eexists.
Qed.

Lemma retry_loop_first_clean command args :
  forall (k fuel : nat) retries (u : T) (s : Session),
    (k <= fuel)%nat -> Z.of_nat k <= retries ->
    signal_stays_set api command args k u s = true ->
    signal_set api (snd (after_retries api command args k u s))
               (fst (after_retries api command args k u s)) = false ->
    exists t,
      retry_loop api fuel command args retries u s
      = (t, Normal (fst (after_retries api command args k u s))
                   (snd (after_retries api command args k u s)))
      /\ actions t = List.concat (repeat (retry_pass command args) k).
Proof.
  induction k as [|k IH]; intros fuel retries u s Hfuel Hk Hset Hclear.
  - cbn [after_retries fst snd] in *. exists [].
    rewrite retry_loop_clear by assumption. now split.
  - cbn [after_retries signal_stays_set] in *.
    apply andb_prop in Hset. destruct Hset as [Hsig Hrest].
    destruct fuel as [|fuel]; [lia|].
    rewrite retry_loop_iterate;
      [| assumption | lia | change INT_MIN with (-2147483648); lia].
    destruct (IH fuel (retries - 1)
                (dispatch_receiver api command args (snd (Reinitialize_body api s)))
                (dispatch_session api command args (snd (Reinitialize_body api s))))
      as (t & E & Ht); [lia | lia | assumption | assumption |].
    rewrite E, prepend_pair. eexists. split; [reflexivity|].
    rewrite actions_app, actions_retry_iteration, Ht. reflexivity.
Qed.

(** X11: if the dropped-or-error signal is set after the first dispatch and
    after each of the first [k - 1] retries, and clear after the [k]-th,
    with [k] within the budget, the retry phase makes exactly [k] passes
    and hands over the receiver and the session of that [k]-th retry; the
    call returns them when the usage counter stays within the threshold. *)
Theorem first_clean_attempt_is_returned
        g command args commandRetries (s : Session) (k : nat) :
  let u0 := dispatch_receiver api command args s in
  let s0 := dispatch_session api command args s in
  let uk := fst (after_retries api command args k u0 s0) in
  let sk := snd (after_retries api command args k u0 s0) in
  Z.of_nat k <= commandRetries ->
  signal_stays_set api command args k u0 s0 = true ->
  signal_set api sk uk = false ->
  exists t,
    retry_phase api command args commandRetries s = (t, Normal uk sk)
    /\ actions t
       = [ESetArgv args; ERun command]
         ++ List.concat (repeat (retry_pass command args) k)
    /\ count_reinitialize t = k
    /\ (forall usage',
           int_succ (m_Usage sk) = Some usage' ->
           usage' <= CommandRefreshThreshold g ->
           RunEx api g command args commandRetries s
           = (t, Normal uk (set_Usage sk usage'))).
Proof.
  cbv zeta. intros Hk Hset Hclear.
  destruct (retry_loop_first_clean command args k (retry_fuel commandRetries)
              commandRetries (dispatch_receiver api command args s)
              (dispatch_session api command args s))
    as (t & E & Ht); try assumption.
  { unfold retry_fuel. destruct (Z.leb_spec 0 commandRetries); lia. }
  assert (Ephase : retry_phase api command args commandRetries s
                   = ([ESetArgv args; ERun command] ++ t,
                      Normal
                        (fst (after_retries api command args k
                                (dispatch_receiver api command args s)
                                (dispatch_session api command args s)))
                        (snd (after_retries api command args k
                                (dispatch_receiver api command args s)
                                (dispatch_session api command args s))))).
  { now rewrite retry_phase_eq, E. }
  eexists. split; [exact Ephase|].
  assert (Ha : actions ([ESetArgv args; ERun command] ++ t)
               = [ESetArgv args; ERun command]
                   ++ List.concat (repeat (retry_pass command args) k)).
  { now rewrite actions_app, Ht. }
  split; [exact Ha|]. split.
  { rewrite <- count_reinitialize_actions, Ha, count_reinitialize_app,
      count_reinitialize_retry_passes. reflexivity. }
  intros usage' Hsucc Hle.
  rewrite (RunEx_recoverable api g _ _ _ _ _ _ _ Ephase)
    by now apply signal_clear_recoverable.
  rewrite (bind_normal _ _ _ _ _ _
             (usage_refresh_below api g _ usage' Hsucc Hle)).
  unfold ret. now rewrite !prepend_pair, !app_nil_r.
Qed.

End RunExMore.

Lemma string_append_empty_r (a : string) : (a ++ "")%string = a.
Proof. induction a as [|c a IH]; cbn; now rewrite ?IH. Qed.

Lemma string_append_assoc (a b c : string) :
  ((a ++ b) ++ c)%string = (a ++ b ++ c)%string.
Proof. induction a as [|x a IH]; cbn; now rewrite ?IH. Qed.

Lemma argsString_from acc args :
  fold_left (fun argsString stringArg => (argsString ++ " " ++ stringArg)%string)
            args acc
  = (acc ++ argsString_of args)%string.
Proof.
  revert acc. unfold argsString_of.
  induction args as [|a args IH]; intros acc; cbn [fold_left].
  - now rewrite string_append_empty_r.
  - rewrite IH, (IH (String.append "" _)). cbn [String.append].
    now rewrite !string_append_assoc.
Qed.

(** X12: the string built at p4_api.h:94-98 is every argument preceded by
    one blank, in order; in particular it is empty for no arguments and
    the string of a concatenation is the concatenation of the strings. *)
Theorem argsString_of_shape (xs ys : list string) :
  argsString_of xs
  = fold_right (fun stringArg rest => (" " ++ stringArg ++ rest)%string) "" xs
  /\ argsString_of (xs ++ ys)
     = (argsString_of xs ++ argsString_of ys)%string.
Proof.
  split.
  - induction xs as [|a xs IH]; [reflexivity|].
    unfold argsString_of at 1. cbn [fold_left fold_right].
    rewrite argsString_from, IH. reflexivity.
  - unfold argsString_of at 1. rewrite fold_left_app.
    fold (argsString_of xs). apply argsString_from.
Qed.

(** * Further runs on concrete inputs *)

Section MoreRuns.

Import Example Example2.

Lemma clean_dispatch_returns_at_once_witness :
  RunEx Script.ops (mkStatics 3 threshold) command arguments (-7)
        (Script.session healthy 0)
  = ([ESetArgv arguments; ERun command],
     Normal NoError (Script.session healthy 1)).
Proof.
  apply (clean_dispatch_returns_at_once Script.ops (R := Script.ErrorResult)
           (mkStatics 3 threshold) command arguments (-7)
           (Script.session healthy 0) 1 eq_refl eq_refl).
  discriminate.
Defined.

Lemma retry_phase_bounded_witness :
  0 <= 4
  /\ exists (k : nat) t u s1,
      retry_phase Script.ops command arguments 4 (Script.session flaky 0)
      = (t, Normal u s1)
      /\ (k <= Z.to_nat 4)%nat
      /\ actions t
         = [ESetArgv arguments; ERun command]
           ++ List.concat (repeat (retry_pass command arguments) k)
      /\ (signal_set Script.ops s1 u = false \/ k = Z.to_nat 4).
Proof.
  assert (H : 0 <= 4) by discriminate.
  split; [exact H|].
  exact (retry_phase_bounded Script.ops command arguments 4
           (Script.session flaky 0) H).
Defined.

Lemma exhausted_budget_outcome_witness :
  always_failing erroring
  /\ RunEx erroring (mkStatics 2 threshold) command arguments 2 (mkP4API tt [] 0)
     = (fst (retry_phase erroring command arguments 2 (mkP4API tt [] 0)),
        Normal RecoverableError (mkP4API tt [] 1))
  /\ count_reinitialize
       (fst (retry_phase erroring command arguments 2 (mkP4API tt [] 0)))
     = 2%nat.
Proof.
  assert (H : always_failing erroring) by (intros ? ? ?; reflexivity).
  split; [exact H|].
  destruct (exhausted_budget_outcome erroring (mkStatics 2 threshold) command
              arguments 2 (mkP4API tt [] 0) H)
    as (t & u & s1 & E & _ & _ & Hc & _ & Hret); [discriminate|].
  change (retry_phase erroring command arguments 2 (mkP4API tt [] 0))
    with ([ESetArgv arguments; ERun command]
            ++ retry_iteration_trace true command arguments
            ++ retry_iteration_trace true command arguments,
          @Normal (P4API unit) Error RecoverableError (mkP4API tt [] 0)) in *.
  injection E as <- <- <-. split; [|exact Hc].
  apply (proj2 (Hret eq_refl) 1 eq_refl). discriminate.
Defined.

Lemma negative_refresh_budget_disables_refresh_witness :
  RunEx Script.ops (mkStatics (-1) threshold) command arguments 0
        (at_threshold healthy)
  = ([ESetArgv arguments; ERun command],
     Normal NoError (Script.session healthy 1001)).
Proof.
  exact (negative_refresh_budget_disables_refresh
           Script.ops (R := Script.ErrorResult) (mkStatics (-1) threshold)
           command arguments 0 (at_threshold healthy)
           [ESetArgv arguments; ERun command] NoError (at_threshold healthy)
           1001 eq_refl eq_refl eq_refl eq_refl).
Defined.

Lemma refresh_stops_at_first_success_witness :
  exists t2,
    RunEx Script.ops (mkStatics 3 threshold) command arguments 3
          (at_threshold reconnects_late)
    = ([ESetArgv arguments; ERun command] ++ t2,
       Normal NoError (Script.session healthy 1001))
    /\ actions t2
       = List.concat (repeat [EReinitialize; ESleep 5] 1) ++ [EReinitialize].
Proof.
  exact (refresh_stops_at_first_success
           Script.ops (R := Script.ErrorResult) (mkStatics 3 threshold)
           command arguments 3 (at_threshold reconnects_late)
           [ESetArgv arguments; ERun command] NoError
           (at_threshold reconnects_late) 1001 1
           eq_refl eq_refl eq_refl eq_refl eq_refl eq_refl eq_refl).
Defined.

Lemma refresh_exhausted_exit_witness :
  exists t2,
    RunEx Script.ops (mkStatics 2 threshold) command arguments 2
          (at_threshold no_reconnect)
    = ([ESetArgv arguments; ERun command] ++ t2,
       Exited 1 (Script.session no_reconnect 1001))
    /\ actions t2
       = List.concat (repeat [EReinitialize; ESleep 5] (Z.to_nat 2))
         ++ [EExit 1].
Proof.
  refine (refresh_exhausted_exit
            Script.ops (R := Script.ErrorResult) (mkStatics 2 threshold)
            command arguments 2 (at_threshold no_reconnect)
            [ESetArgv arguments; ERun command] NoError
            (at_threshold no_reconnect) 1001
            eq_refl eq_refl eq_refl eq_refl _ eq_refl).
  discriminate.
Defined.

Lemma RunEx_waits_are_bounded_witness :
  slept (fst (RunEx Script.ops (mkStatics 2 threshold) command arguments 3
                    (at_threshold flaky)))
  <= 5 * (3 + Z.max 0 2)
  /\ Z.of_nat
       (count_reinitialize
          (fst (RunEx Script.ops (mkStatics 2 threshold) command arguments 3
                      (at_threshold flaky))))
     <= 3 + Z.max 0 2.
Proof.
  apply (RunEx_waits_are_bounded Script.ops (mkStatics 2 threshold) command
           arguments 3 (at_threshold flaky)).
  discriminate.
Defined.

Lemma RunEx_defined_witness :
  exists t u s1,
    retry_phase Script.ops command arguments 3 (at_threshold flaky)
    = (t, Normal u s1)
    /\ (m_Usage s1 < INT_MAX ->
        (exists s',
            snd (RunEx Script.ops (mkStatics 2 threshold) command arguments 3
                       (at_threshold flaky)) = Normal u s')
        \/ (exists s',
               snd (RunEx Script.ops (mkStatics 2 threshold) command arguments 3
                          (at_threshold flaky)) = Exited 1 s')).
Proof.
  apply (RunEx_defined Script.ops (mkStatics 2 threshold) command arguments 3
           (at_threshold flaky)).
  discriminate.
Defined.

Lemma first_clean_attempt_is_returned_witness :
  exists t,
    retry_phase Script.ops command arguments 5 (Script.session recovers_on_third 0)
    = (t, Normal NoError (Script.session healthy 0))
    /\ actions t
       = [ESetArgv arguments; ERun command]
         ++ List.concat (repeat (retry_pass command arguments) 2)
    /\ count_reinitialize t = 2%nat
    /\ (forall usage',
           int_succ (m_Usage (Script.session healthy 0)) = Some usage' ->
           usage' <= CommandRefreshThreshold (mkStatics 5 threshold) ->
           RunEx Script.ops (mkStatics 5 threshold) command arguments 5
                 (Script.session recovers_on_third 0)
           = (t, Normal NoError (set_Usage (Script.session healthy 0) usage'))).
Proof.
  refine (first_clean_attempt_is_returned
            Script.ops (R := Script.ErrorResult) (mkStatics 5 threshold)
            command arguments 5 (Script.session recovers_on_third 0) 2
            _ eq_refl eq_refl).
  discriminate.
Defined.

End MoreRuns.

(** * The retry and refresh cycles *)

Section Cycles.

Context {ClientApi T : Type}.
Context (api : ClientApiOps ClientApi T).
Context {R : Result T}.
Local Abbreviation Session := (P4API ClientApi).

Lemma after_retries_succ command args k (u : T) (s : Session) :
  after_retries api command args (S k) u s
  = (dispatch_receiver api command args
       (snd (Reinitialize_body api (snd (after_retries api command args k u s)))),
     dispatch_session api command args
       (snd (Reinitialize_body api (snd (after_retries api command args k u s))))).
Proof.
  revert u s. induction k as [|k IH]; intros u s; [reflexivity|].
  change (after_retries api command args (S (S k)) u s)
    with (after_retries api command args (S k)
            (dispatch_receiver api command args (snd (Reinitialize_body api s)))
            (dispatch_session api command args (snd (Reinitialize_body api s)))).
  rewrite IH. reflexivity.
Qed.

Lemma retries_trace_succ command args k (u : T) (s : Session) :
  retries_trace api command args (S k) u s
  = retries_trace api command args k u s
    ++ retry_iteration_trace
         (fst (Reinitialize_body api (snd (after_retries api command args k u s))))
         command args.
Proof.
  revert u s. induction k as [|k IH]; intros u s.
  - cbn [retries_trace after_retries snd]. now rewrite app_nil_r.
  - change (retries_trace api command args (S (S k)) u s)
      with (retry_iteration_trace (fst (Reinitialize_body api s)) command args
            ++ retries_trace api command args (S k)
                 (dispatch_receiver api command args (snd (Reinitialize_body api s)))
                 (dispatch_session api command args (snd (Reinitialize_body api s)))).
    rewrite IH, app_assoc. reflexivity.
Qed.

(** The loop after [k] passes with the signal set and the budget not yet
    spent: the [k] passes have been made and the loop is at its head again,
    with the budget [k] lower. *)
Lemma retry_loop_unroll command args :
  forall (k fuel : nat) retries (u : T) (s : Session),
    Z.of_nat k <= retries ->
    signal_stays_set api command args k u s = true ->
    retry_loop api (k + fuel) command args retries u s
    = prepend (retries_trace api command args k u s)
        (retry_loop api fuel command args (retries - Z.of_nat k)
           (fst (after_retries api command args k u s))
           (snd (after_retries api command args k u s))).
Proof.
  induction k as [|k IH]; intros fuel retries u s Hk Hset.
  - cbn [Nat.add retries_trace after_retries fst snd].
    rewrite prepend_nil. f_equal. cbn. lia.
  - cbn [signal_stays_set] in Hset. apply andb_prop in Hset.
    destruct Hset as [Hsig Hrest].
    cbn [Nat.add retries_trace after_retries].
    rewrite retry_loop_iterate;
      [| assumption | lia | change INT_MIN with (-2147483648); lia].
    rewrite IH by (assumption || lia).
    rewrite prepend_prepend. f_equal. f_equal. lia.
Qed.

Lemma fst_bind_extends {S A B} (m : M S A) (f : A -> M S B) (s : S) :
  exists rest, fst (bind m f s) = fst (m s) ++ rest.
Proof.
  unfold bind. destruct (m s) as [t [a s'| | |]]; cbn [fst].
  - destruct (f a s') as [t' o]. now exists t'.
  - exists []. now rewrite app_nil_r.
  - exists []. now rewrite app_nil_r.
  - exists []. now rewrite app_nil_r.
Qed.

Lemma RunEx_extends_retry_phase g command args commandRetries (s : Session) :
  exists rest,
    fst (RunEx api g command args commandRetries s)
    = fst (retry_phase api command args commandRetries s) ++ rest.
Proof. unfold RunEx. apply fst_bind_extends. Qed.

Lemma retry_phase_unroll command args commandRetries (s : Session) (k : nat) :
  Z.of_nat k <= commandRetries ->
  signal_stays_set api command args k
    (dispatch_receiver api command args s)
    (dispatch_session api command args s) = true ->
  exists fuel,
    (Z.to_nat (commandRetries - Z.of_nat k) < fuel)%nat
    /\ retry_phase api command args commandRetries s
       = prepend ([ESetArgv args; ERun command]
                    ++ retries_trace api command args k
                         (dispatch_receiver api command args s)
                         (dispatch_session api command args s))
           (retry_loop api fuel command args (commandRetries - Z.of_nat k)
              (fst (after_retries api command args k
                      (dispatch_receiver api command args s)
                      (dispatch_session api command args s)))
              (snd (after_retries api command args k
                      (dispatch_receiver api command args s)
                      (dispatch_session api command args s)))).
Proof.
  intros Hk Hset. exists (retry_fuel commandRetries - k)%nat.
  assert (Hfuel : retry_fuel commandRetries
                  = (k + (retry_fuel commandRetries - k))%nat).
  { unfold retry_fuel. destruct (Z.leb_spec 0 commandRetries); lia. }
  split.
  { unfold retry_fuel. destruct (Z.leb_spec 0 commandRetries); lia. }
  rewrite retry_phase_eq. rewrite Hfuel at 1.
  rewrite retry_loop_unroll by assumption.
  now rewrite prepend_prepend.
Qed.

(** C6: every iteration of the retry loop, inside [RunEx].  Take the call
    after [k] passes, each of them entered with the dropped-or-error signal
    set, and let the signal be set again.  If the budget is spent
    ([k = commandRetries]) the loop is left without a further retry and the
    retry phase ends with the receiver of the last attempt.  If budget
    remains, the call goes on with one more pass, which is, in this order:
    a 5-second wait, a [Reinitialize] call, and the dispatch of the same
    command with the same arguments to a receiver made by [new T()].  The
    steps are the same whether [Reinitialize] succeeded or not (only the
    log line differs), and the receiver of the attempt before is not used.
    The budget is then one lower and the two signals are read again: the
    loop is left with the new receiver when they are clear or the budget is
    spent, and begins another pass otherwise. *)
Theorem retry_iteration_in_RunEx g command args commandRetries
        (s : Session) (k : nat) :
  let u0 := dispatch_receiver api command args s in
  let s0 := dispatch_session api command args s in
  let uk := fst (after_retries api command args k u0 s0) in
  let sk := snd (after_retries api command args k u0 s0) in
  let done := [ESetArgv args; ERun command]
              ++ retries_trace api command args k u0 s0 in
  signal_stays_set api command args k u0 s0 = true ->
  Z.of_nat k <= commandRetries ->
  signal_set api sk uk = true ->
  (Z.of_nat k = commandRetries ->
   retry_phase api command args commandRetries s = (done, Normal uk sk))
  /\ (Z.of_nat k < commandRetries ->
      let ok := fst (Reinitialize_body api sk) in
      let s1 := snd (Reinitialize_body api sk) in
      let sent := Run api command new_T (SetArgv api args (m_ClientAPI s1)) in
      let u' := snd sent in
      let s' := set_ClientAPI s1 (fst sent) in
      let pass :=
        [ ELog LogERR [FStr "Connection dropped or command errored, retrying in 5 seconds."];
          ESleep 5;
          EReinitialize;
          (if ok then ELog LogSUCCESS [FStr "Reinitialized P4API"]
           else ELog LogERR [FStr "Could not reinitialize P4API"]);
          ELog LogWARN [FStr "Retrying: p4 "; FStr command;
                        FStr (argsString_of args)];
          ESetArgv args;
          ERun command ] in
      actions pass = [ESleep 5; EReinitialize; ESetArgv args; ERun command]
      /\ after_retries api command args (S k) u0 s0 = (u', s')
      /\ (exists rest,
             fst (retry_phase api command args commandRetries s)
             = done ++ pass ++ rest)
      /\ (exists rest,
             fst (RunEx api g command args commandRetries s)
             = done ++ pass ++ rest)
      /\ (signal_set api s' u' = false \/ Z.of_nat (S k) = commandRetries ->
          retry_phase api command args commandRetries s
          = (done ++ pass, Normal u' s'))
      /\ (signal_set api s' u' = true -> Z.of_nat (S k) < commandRetries ->
          exists rest,
            fst (retry_phase api command args commandRetries s)
            = done ++ pass
              ++ retry_iteration_trace (fst (Reinitialize_body api s'))
                                       command args
              ++ rest)).
Proof.
  cbv zeta. intros Hset Hk Hsig.
  destruct (retry_phase_unroll command args commandRetries s k Hk Hset)
    as (fuel & Hfuel & E).
  split.
  - intros Heq. rewrite E.
    replace (commandRetries - Z.of_nat k) with 0 by lia.
    rewrite retry_loop_spent, prepend_pair, app_nil_r. reflexivity.
  - intros Hlt.
    destruct fuel as [|fuel]; [lia|].
    rewrite retry_loop_iterate in E;
      [| assumption | lia | change INT_MIN with (-2147483648); lia].
    rewrite prepend_prepend in E.
    split; [now destruct (fst (Reinitialize_body api _))|].
    split; [apply after_retries_succ|].
    split.
    { rewrite E, fst_prepend, <- app_assoc. now eexists. }
    split.
    { destruct (RunEx_extends_retry_phase g command args commandRetries s)
        as (rest & ->).
      rewrite E, fst_prepend, <- !app_assoc. now eexists. }
    split.
    + intros [Hclear|Hspent]; rewrite E.
      * rewrite retry_loop_clear by exact Hclear.
        now rewrite prepend_pair, app_nil_r, <- app_assoc.
      * replace (commandRetries - Z.of_nat k - 1) with 0 by lia.
        now rewrite retry_loop_spent, prepend_pair, app_nil_r, <- app_assoc.
    + intros Hagain Hmore. rewrite E.
      destruct fuel as [|fuel]; [lia|].
      rewrite retry_loop_iterate;
        [| exact Hagain | lia | change INT_MIN with (-2147483648); lia].
      rewrite prepend_prepend, fst_prepend, <- !app_assoc. now eexists.
Qed.

(** C7, amended: when the first dispatch sets the dropped-or-error signal
    and the redispatch of the first retry clears it, the retry phase makes
    exactly one [Reinitialize] call and ends with a receiver free of error,
    for every budget other than 0 and [INT_MIN].  [RunEx] returns that
    receiver after this one call when the counter it then increments does
    not exceed the refresh threshold, or [CommandRetries] is negative.
    When the counter exceeds the threshold and [CommandRetries] is not
    negative, the call either ends the process or returns the receiver
    after at least one more [Reinitialize] call. *)
Theorem first_retry_clears g command args commandRetries (s : Session) :
  let s0 := dispatch_session api command args s in
  let u0 := dispatch_receiver api command args s in
  let ok := fst (Reinitialize_body api s0) in
  let s1 := snd (Reinitialize_body api s0) in
  let s2 := dispatch_session api command args s1 in
  let u2 := dispatch_receiver api command args s1 in
  let t := [ESetArgv args; ERun command]
           ++ retry_iteration_trace ok command args in
  signal_set api s0 u0 = true ->
  commandRetries <> 0 ->
  INT_MIN < commandRetries ->
  signal_set api s2 u2 = false ->
  retry_phase api command args commandRetries s = (t, Normal u2 s2)
  /\ count_reinitialize t = 1%nat
  /\ IsError (GetError u2) = false
  /\ (forall usage',
         int_succ (m_Usage s2) = Some usage' ->
         (usage' <= CommandRefreshThreshold g \/ CommandRetries g < 0 ->
          RunEx api g command args commandRetries s
          = (t, Normal u2 (set_Usage s2 usage')))
         /\ (CommandRefreshThreshold g < usage' -> 0 <= CommandRetries g ->
             exists t2 o,
               RunEx api g command args commandRetries s = (t ++ t2, o)
               /\ ((exists s', o = Exited 1 s')
                   \/ (exists s', o = Normal u2 s'
                                  /\ (1 <= count_reinitialize t2)%nat)))).
Proof.
  cbv zeta. intros Hset Hnz Hmin Hclear.
  assert (E : retry_phase api command args commandRetries s
              = ([ESetArgv args; ERun command]
                   ++ retry_iteration_trace
                        (fst (Reinitialize_body api (dispatch_session api command args s)))
                        command args,
                 Normal
                   (dispatch_receiver api command args
                      (snd (Reinitialize_body api (dispatch_session api command args s))))
                   (dispatch_session api command args
                      (snd (Reinitialize_body api (dispatch_session api command args s)))))).
  { rewrite retry_phase_eq. unfold retry_fuel.
    rewrite retry_loop_iterate by assumption.
    rewrite retry_loop_clear by assumption.
    rewrite !prepend_pair, app_nil_r. reflexivity. }
  assert (Hrec := signal_clear_recoverable api _ _ Hclear).
  assert (Hone : count_reinitialize
                   ([ESetArgv args; ERun command]
                      ++ retry_iteration_trace
                           (fst (Reinitialize_body api (dispatch_session api command args s)))
                           command args) = 1%nat).
  { rewrite count_reinitialize_app, count_reinitialize_retry_iteration.
    reflexivity. }
  split; [exact E|]. split; [exact Hone|].
  split; [exact (signal_clear_no_error api _ _ Hclear)|].
  intros usage' Hsucc. split.
  - intros [Hle|Hneg].
    + rewrite (RunEx_recoverable api g _ _ _ _ _ _ _ E Hrec).
      rewrite (bind_normal _ _ _ _ _ _
                 (usage_refresh_below api g _ usage' Hsucc Hle)).
      unfold ret. now rewrite !prepend_pair, !app_nil_r.
    + rewrite (RunEx_recoverable api g _ _ _ _ _ _ _ E Hrec).
      destruct (Z_lt_le_dec (CommandRefreshThreshold g) usage') as [Habove|Hbelow].
      * rewrite (bind_eq _ _ _ _ _ (usage_refresh_above api g _ usage' Hsucc Habove)).
        rewrite bind_bind.
        rewrite (bind_normal _ _ _ _ _ _
                   (refresh_loop_skip api _ g (CommandRetries g) _
                                      (Z.lt_le_incl _ _ Hneg))).
        destruct (Z.eqb_spec (CommandRetries g) 0); [lia|].
        rewrite bind_ret. unfold ret. now rewrite !prepend_pair, !app_nil_r.
      * rewrite (bind_normal _ _ _ _ _ _
                   (usage_refresh_below api g _ usage' Hsucc Hbelow)).
        unfold ret. now rewrite !prepend_pair, !app_nil_r.
  - intros Habove Hnn.
    rewrite (RunEx_recoverable api g _ _ _ _ _ _ _ E Hrec).
    rewrite (bind_eq _ _ _ _ _ (usage_refresh_above api g _ usage' Hsucc Habove)).
    rewrite bind_bind.
    destruct (refresh_loop_result api g (Z.to_nat (CommandRetries g))
                (CommandRetries g)
                (set_Usage
                   (dispatch_session api command args
                      (snd (Reinitialize_body api (dispatch_session api command args s))))
                   usage'))
      as (t2 & r & s2' & Eloop & _ & _ & Hcases); [lia|].
    rewrite (bind_normal _ _ _ _ _ _ Eloop).
    destruct Hcases as [(-> & _)|(Hr & _ & Hc)].
    + cbn [Z.eqb]. rewrite (bind_exited _ _ _ _ _ _ (ERR_then_exit _ _ _)).
      rewrite !prepend_pair. eexists _, _. split; [reflexivity|].
      left. now eexists.
    + destruct (Z.eqb_spec r 0); [lia|].
      rewrite bind_ret. unfold ret. rewrite !prepend_pair, app_nil_r.
      eexists _, _. split; [reflexivity|].
      right. eexists. split; [reflexivity|]. rewrite Hc. lia.
Qed.



End Cycles.

(** ** The connection at the exit of a failed refresh *)

Section Closes.

Context {ClientApi T : Type}.
Context (api : ClientApiOps ClientApi T).
Context {R : Result T}.




End Closes.

(** ** The cycles on concrete inputs *)

Section CycleRuns.

Import Example.

Lemma retry_iteration_in_RunEx_witness :
  signal_stays_set Script.ops command arguments 1 RecoverableError
    (Script.session
       (Script.conn [(true, NoError)] (false, NoError) [] true) 0) = true
  /\ retry_phase Script.ops command arguments 3
       (Script.session Example2.recovers_on_third 0)
     = (([ESetArgv arguments; ERun command]
           ++ retry_iteration_trace true command arguments)
          ++ retry_iteration_trace true command arguments,
        Normal NoError (Script.session healthy 0)).
Proof.
  split; [reflexivity|].
  destruct (retry_iteration_in_RunEx Script.ops (R := Script.ErrorResult)
              (mkStatics 3 threshold) command arguments 3
              (Script.session Example2.recovers_on_third 0) 1
              eq_refl ltac:(discriminate) eq_refl) as [_ H].
  destruct (H eq_refl) as (_ & _ & _ & _ & Hend & _).
  exact (Hend (or_introl eq_refl)).
Defined.

Lemma first_retry_clears_witness :
  signal_set Script.ops
    (dispatch_session Script.ops command arguments (Script.session flaky 0))
    (dispatch_receiver Script.ops command arguments (Script.session flaky 0))
  = true
  /\ RunEx Script.ops (mkStatics 3 threshold) command arguments (-1)
           (Script.session flaky 0)
     = ([ESetArgv arguments; ERun command]
          ++ retry_iteration_trace true command arguments,
        Normal NoError (Script.session healthy 1))
  /\ count_reinitialize
       ([ESetArgv arguments; ERun command]
          ++ retry_iteration_trace true command arguments) = 1%nat.
Proof.
  split; [reflexivity|].
  destruct (first_retry_clears Script.ops (R := Script.ErrorResult)
              (mkStatics 3 threshold) command arguments (-1)
              (Script.session flaky 0)
              eq_refl ltac:(discriminate) eq_refl eq_refl)
    as (_ & Hone & _ & H).
  split; [|exact Hone].
  destruct (H 1) as [H1 _]; [reflexivity|].
  apply H1. left. discriminate.
Defined.

(** The reading of C7 as the spec words it fails in two ways.  With a
    refresh threshold of 0 and a usage counter of 0 the command that the
    first retry completes takes the counter above the threshold, and the
    refresh makes a second [Reinitialize] call before the result is
    returned.  With a budget of [INT_MIN] the decrement that follows the
    redispatch is not defined. *)
Lemma first_retry_clears_yet_not_single :
  ~ single_reinitialize_when_first_retry_clears
      Script.ops (mkStatics 3 0) command arguments 3 (Script.session flaky 0)
  /\ ~ single_reinitialize_when_first_retry_clears
         Script.ops (mkStatics 3 threshold) command arguments INT_MIN
         (Script.session flaky 0).
Proof.
  split; intros H.
  - destruct (H eq_refl ltac:(discriminate) eq_refl) as (t & s' & E & _ & Hc).
    vm_compute in E. injection E as <- _. vm_compute in Hc. discriminate Hc.
  - destruct (H eq_refl ltac:(discriminate) eq_refl) as (t & s' & E & _).
    vm_compute in E. discriminate E.
Qed.





End CycleRuns.
